(** * Arguments: a shallow embedding of [src/Arguments.ts]

    The class [Arguments] keeps three private fields (the parsed tokens, the
    declaration map and an optional description) and answers queries by
    calling back into caller-supplied convertors and default suppliers.
    The embedding keeps that shape: the fields live in a store, every method
    is a computation over the store that may throw, and caller-supplied
    functions are arbitrary computations over the same store. *)

From Stdlib Require Import String Ascii List Bool Arith ZArith Lia.
From Stdlib Require Import Permutation Sorted.
Import ListNotations.
Local Open Scope string_scope.

(** ** JavaScript strings

    Strings are sequences of ASCII characters; [toLowerCase] and [trim] are
    the ASCII restrictions of the JavaScript methods of the same name. *)

Module JsString.

Definition empty : string := EmptyString.

Definition isEmpty (s : string) : bool :=
  match s with EmptyString => true | String _ _ => false end.

(** Truthiness of a string value: only the empty string is falsy. *)
Definition truthy (s : string) : bool := negb (isEmpty s).

Definition lowerChar (c : ascii) : ascii :=
  let n := nat_of_ascii c in
  if ((65 <=? n) && (n <=? 90))%nat then ascii_of_nat (n + 32) else c.

Fixpoint toLowerCase (s : string) : string :=
  match s with
  | EmptyString => EmptyString
  | String c r => String (lowerChar c) (toLowerCase r)
  end.

(** White space and line terminators removed by [trim]: TAB, LF, VT, FF, CR
    and SPACE. *)
Definition isSpace (c : ascii) : bool :=
  let n := nat_of_ascii c in
  (((9 <=? n) && (n <=? 13)) || (n =? 32))%nat.

Fixpoint trimStart (s : string) : string :=
  match s with
  | EmptyString => EmptyString
  | String c r => if isSpace c then trimStart r else s
  end.

Fixpoint trimEnd (s : string) : string :=
  match s with
  | EmptyString => EmptyString
  | String c r =>
      let r' := trimEnd r in
      if isSpace c && isEmpty r' then EmptyString else String c r'
  end.

Definition trim (s : string) : string := trimEnd (trimStart s).

(** [s.substring(0, 1)] *)
Definition substring01 (s : string) : string :=
  match s with
  | EmptyString => EmptyString
  | String c _ => String c EmptyString
  end.

(** [s.split(sep)] for a one-character separator: never the empty list. *)
Fixpoint split (sep : ascii) (s : string) : list string :=
  match s with
  | EmptyString => [EmptyString]
  | String c r =>
      if Ascii.eqb c sep then EmptyString :: split sep r
      else match split sep r with
           | [] => [String c EmptyString]
           | h :: t => String c h :: t
           end
  end.

(** [xs.join(sep)] *)
Definition join (sep : string) (xs : list string) : string :=
  String.concat sep xs.

(** [' '.repeat(n)] *)
Fixpoint spaces (n : nat) : string :=
  match n with
  | O => EmptyString
  | S k => String " "%char (spaces k)
  end.

Definition newline : ascii := ascii_of_nat 10.
Definition nl : string := String newline EmptyString.
Definition dquote : string := String (ascii_of_nat 34) EmptyString.

End JsString.

Import JsString.

(** ** Values *)

(** What a token may carry: [undefined | string | boolean].  The convertor
    type has no other inhabitant, so the [v === null] test of
    [booleanConvertor] has no input of this type to fire on. *)
Inductive RawValue : Type :=
| RUndefined
| RBool (b : bool)
| RString (s : string).

(** What convertors and default suppliers may return.  Numbers are the
    integral ones; objects are references, so that two allocations differ. *)
Inductive Value : Type :=
| VUndefined
| VNull
| VBool (b : bool)
| VString (s : string)
| VNumber (n : Z)
| VObject (ref : nat).

(** Tokens of [model/parse.ts]: a [_tag], a [name], and for flags a [value]. *)
Inductive Tag : Type := TagFlag | TagCommand.

Inductive Token : Type :=
| Flag (name : string) (value : RawValue)
| Command (name : string).

Definition _tag (t : Token) : Tag :=
  match t with Flag _ _ => TagFlag | Command _ => TagCommand end.

Definition token_name (t : Token) : string :=
  match t with Flag n _ => n | Command n => n end.

(** [t.value]; reading the property off a command yields [undefined]. *)
Definition token_value (t : Token) : RawValue :=
  match t with Flag _ v => v | Command _ => RUndefined end.

Definition Tag_eqb (a b : Tag) : bool :=
  match a, b with
  | TagFlag, TagFlag | TagCommand, TagCommand => true
  | _, _ => false
  end.

(** Exceptions, by class.  [Thrown] stands for any other thrown value. *)
Inductive Exception : Type :=
| Error (message : string)
| TypeError (message : string)
| PrintableException (message : string)
| InfoInterruption (message : string)
| Thrown (v : Value).

(** Modelled from the spec: [InfoInterruption.ts] and [PrintableException.ts]
    are not among the sources.  The help interruption carries the string it
    is built with and is a subtype of [PrintableException]; [Error] and
    [TypeError] are not. *)
Definition instanceofPrintableException (e : Exception) : bool :=
  match e with
  | PrintableException _ | InfoInterruption _ => true
  | Error _ | TypeError _ | Thrown _ => false
  end.

(** Outcome of a call: a returned value or a thrown exception. *)
Inductive result (A : Type) : Type :=
| Ok (a : A)
| Throw (e : Exception).
Arguments Ok {A} a.
Arguments Throw {A} e.

(** ** Convertors and default suppliers

    A function value is either one of the three exported convertors or a
    reference to a caller-supplied function. *)
Inductive Convertor : Type :=
| BooleanConvertor
| StringConvertor
| NumberConvertor
| UserConvertor (f : nat).

Inductive Supplier : Type :=
| UserSupplier (f : nat).

Record FlagOptions : Type := {
  op_convertor : Convertor;
  op_shortName : option string;
  op_description : option string;
  op_default : option Supplier;
  op_excludeFromHelp : option bool
}.

(** The interface declares [description: string[]]; [createFlagDeclarations]
    stores [undefined] there when no description is given, hence the
    option. *)
Record FlagDeclaration : Type := {
  longName : string;
  shortName : option string;
  description : option (list string);
  default : option Supplier;
  convertor : Convertor;
  excludeFromHelp : bool
}.

(** ** Exported convertors *)

Definition booleanConvertor (v : RawValue) : Value :=
  match v with
  | RUndefined => VBool false
  | RBool false => VBool false
  | RBool true => VBool true
  | RString str =>
      let s := trim (toLowerCase str) in
      if String.eqb s "true" then VBool true
      else if String.eqb s "1" then VBool true
      else VBool true
  end.

(** Template literal [`${v}`] on a raw value that is not [undefined]. *)
Definition template (v : RawValue) : string :=
  match v with
  | RUndefined => "undefined"
  | RBool true => "true"
  | RBool false => "false"
  | RString s => s
  end.

Definition stringConvertor (v : RawValue) : Value :=
  match v with
  | RUndefined => VUndefined
  | _ => VString (template v)
  end.

Definition helpFlagNames : string * string := ("help", "h").

Definition normalizeName (name : string) : string := toLowerCase (trim name).
Definition normalizeShortName (name : string) : string :=
  substring01 (normalizeName name).

(** ** The declaration map

    A JavaScript [Map] keeps insertion order, and setting a key that is
    already present replaces its value in place. *)
Definition DeclMap : Type := list (string * FlagDeclaration).

Fixpoint map_get (m : DeclMap) (k : string) : option FlagDeclaration :=
  match m with
  | [] => None
  | (k', d) :: r => if String.eqb k k' then Some d else map_get r k
  end.

Fixpoint map_set (m : DeclMap) (k : string) (d : FlagDeclaration) : DeclMap :=
  match m with
  | [] => [(k, d)]
  | (k', d') :: r =>
      if String.eqb k k' then (k', d) :: r else (k', d') :: map_set r k d
  end.

Definition setEntry (m : DeclMap) (e : string * FlagDeclaration) : DeclMap :=
  map_set m (fst e) (snd e).

(** [new Map(entries)] *)
Definition new_Map (entries : list (string * FlagDeclaration)) : DeclMap :=
  fold_left setEntry entries [].

Definition map_keys (m : DeclMap) : list string := map fst m.
Definition map_values (m : DeclMap) : list FlagDeclaration := map snd m.

(** [options] is given as [Object.entries(options)]: the own properties in
    order, with pairwise distinct keys. *)
Definition declare (entry : string * FlagOptions) : FlagDeclaration :=
  let (name, op) := entry in
  {| longName := normalizeName name;
     shortName :=
       match op_shortName op with
       | Some s => if truthy s then Some (normalizeShortName s) else None
       | None => None
       end;
     description :=
       match op_description op with
       | Some d => Some (split newline (trim d))
       | None => None
       end;
     default := op_default op;
     convertor := op_convertor op;
     excludeFromHelp :=
       match op_excludeFromHelp op with Some b => b | None => false end |}.

Definition createFlagDeclarations (options : list (string * FlagOptions))
  : DeclMap :=
  new_Map (map (fun declaration => (longName declaration, declaration))
               (map declare options)).

(** [Arguments.createHelp()], as its entries. *)
Definition helpOption : FlagOptions :=
  {| op_convertor := BooleanConvertor;
     op_shortName := Some (snd helpFlagNames);
     op_description := Some "Show this help message.";
     op_default := None;
     op_excludeFromHelp := Some true |}.

Definition createHelp : list (string * FlagOptions) :=
  [ (fst helpFlagNames, helpOption) ].

(** ** Tokenizer *)

(** [splitFirst sep s] is [Some (l, r)] when [sep] occurs in [s], [l] being
    the text before its first occurrence and [r] the text after it. *)
Fixpoint splitFirst (sep : ascii) (s : string) : option (string * string) :=
  match s with
  | EmptyString => None
  | String c r =>
      if Ascii.eqb c sep then Some (EmptyString, r)
      else match splitFirst sep r with
           | Some (l, r') => Some (String c l, r')
           | None => None
           end
  end.

Fixpoint chars (s : string) : list string :=
  match s with
  | EmptyString => []
  | String c r => String c EmptyString :: chars r
  end.

Definition dropPrefix (n : nat) (s : string) : string :=
  substring n (String.length s - n) s.

(** Modelled from the spec: [model/parse.ts] is not among the sources.
    Left to right: [--name=value] is a flag with the text after the first
    [=] as its value; [--name] takes the next raw argument as its value
    when there is one not starting with a dash, and is [true] otherwise;
    [-abc] is one boolean flag per character, and with [=value] the first
    character is the name; anything else is a command.  A lone [--] is the
    flag with the empty name and a lone [-] yields no token. *)
Fixpoint parse (rawArgs : list string) : list Token :=
  match rawArgs with
  | [] => []
  | a :: rest =>
      if String.prefix "--" a then
        let body := dropPrefix 2 a in
        match splitFirst "="%char body with
        | Some (n, v) => Flag n (RString v) :: parse rest
        | None =>
            match rest with
            | b :: rest' =>
                if String.prefix "-" b
                then Flag body (RBool true) :: parse rest
                else Flag body (RString b) :: parse rest'
            | [] => [Flag body (RBool true)]
            end
        end
      else if String.prefix "-" a then
        let body := dropPrefix 1 a in
        match splitFirst "="%char body with
        | Some (n, v) => Flag (substring01 n) (RString v) :: parse rest
        | None => map (fun c => Flag c (RBool true)) (chars body) ++ parse rest
        end
      else Command a :: parse rest
  end.

(** ** The instance and its store *)

Record Instance : Type := {
  rawArgs : list Token;
  flagDeclarations : DeclMap;
  desciprion : option string
}.

(** [a ?? undefined] *)
Definition orUndefined (v : Value) : Value :=
  match v with VNull => VUndefined | _ => v end.

(** [v === true] *)
Definition isTrue (v : Value) : bool :=
  match v with VBool true => true | _ => false end.

Definition notFoundMessage (name : string) : string :=
  "Argument " ++ dquote ++ name ++ dquote ++ " is not declared.".

Definition undefinedMapMessage : string :=
  "Cannot read properties of undefined (reading 'map')".

(** Whether the character occurs in the string. *)
Fixpoint hasChar (c : ascii) (s : string) : bool :=
  match s with
  | EmptyString => false
  | String c' r => Ascii.eqb c' c || hasChar c r
  end.

(** ** Objects

    An object is given by its own properties in the order in which
    [Object.entries] and [Object.keys] list them: the array indices first,
    in ascending numeric order, then the other keys in the order of their
    creation. *)
Definition JsObject : Type := list (string * Value).

Definition digitValue (c : ascii) : option N :=
  let n := N_of_ascii c in
  if ((48 <=? n) && (n <=? 57))%N then Some (n - 48)%N else None.

Fixpoint digitsValue (s : string) (acc : N) : option N :=
  match s with
  | EmptyString => Some acc
  | String c r =>
      match digitValue c with
      | Some d => digitsValue r (10 * acc + d)%N
      | None => None
      end
  end.

(** The array index a key stands for, if any: a decimal numeral without
    leading zero whose value is below [2^32 - 1]. *)
Definition arrayIndex (s : string) : option N :=
  match s with
  | EmptyString => None
  | String c r =>
      if Ascii.eqb c "0"%char && negb (isEmpty r) then None
      else match digitsValue s 0 with
           | Some n => if (n <? 4294967295)%N then Some n else None
           | None => None
           end
  end.

Definition isArrayIndex (s : string) : bool :=
  match arrayIndex s with Some _ => true | None => false end.

Definition indexOf {A} (e : string * A) : N :=
  match arrayIndex (fst e) with Some n => n | None => 0%N end.

Fixpoint insertByIndex {A} (e : string * A) (l : list (string * A))
  : list (string * A) :=
  match l with
  | [] => [e]
  | x :: r =>
      if (indexOf e <=? indexOf x)%N then e :: l else x :: insertByIndex e r
  end.

Definition sortByIndex {A} (l : list (string * A)) : list (string * A) :=
  fold_right insertByIndex [] l.

(** The order of the own property keys, from the order of creation. *)
Definition ownPropertyOrder {A} (created : list (string * A))
  : list (string * A) :=
  (sortByIndex (filter (fun e => isArrayIndex (fst e)) created)
   ++ filter (fun e => negb (isArrayIndex (fst e))) created)%list.

Definition indexLe {A} (a b : string * A) : Prop :=
  (indexOf a <= indexOf b)%N.

(** Creating a data property: a key that exists keeps its place and takes
    the new value, a new key is created last. *)
Fixpoint defineProperty (created : list (string * Value)) (k : string)
  (v : Value) : list (string * Value) :=
  match created with
  | [] => [(k, v)]
  | (k', v') :: r =>
      if String.eqb k k' then (k', v) :: r
      else (k', v') :: defineProperty r k v
  end.

(** [Object.fromEntries(entries)] *)
Definition Object_fromEntries (entries : list (string * Value)) : JsObject :=
  ownPropertyOrder
    (fold_left (fun o e => defineProperty o (fst e) (snd e)) entries []).

Definition nonEmpty (s : string) : bool := negb (String.eqb s EmptyString).

Definition visible (dec : FlagDeclaration) : bool := negb (excludeFromHelp dec).

(** [find] over the tokens carrying the tag, by normalized name. *)
Definition findRaw (tokens : list Token) (name : string) (tag : Tag)
  : option Token :=
  find (fun f => String.eqb (normalizeName name) (normalizeName (token_name f)))
       (filter (fun arg => Tag_eqb (_tag arg) tag) tokens).

(** The options of the port example: a number flag with short name [p] and
    a default supplier. *)
Definition portOption : FlagOptions :=
  {| op_convertor := NumberConvertor;
     op_shortName := Some "p";
     op_description := None;
     op_default := Some (UserSupplier 0);
     op_excludeFromHelp := None |}.

Definition portOptions : list (string * FlagOptions) := [("port", portOption)].

Section Arguments.

(** Everything of the running program outside the instance. *)
Variable World : Type.

(** [helpers/colors.ts], [Deno.inspect] with the options the renderer passes,
    and the [Number] constructor are taken as given. *)
Variables primary secondary : string -> string.
Variable inspect : Value -> string.
Variable Number : RawValue -> Value.

Record Store : Type := {
  this : Instance;
  world : World
}.

(** Computations: state passing with exceptions. *)
Definition M (A : Type) : Type := Store -> result A * Store.

Definition ret {A} (a : A) : M A := fun st => (Ok a, st).
Definition throw {A} (e : Exception) : M A := fun st => (Throw e, st).
Definition bind {A B} (c : M A) (k : A -> M B) : M B :=
  fun st =>
    match c st with
    | (Ok a, st') => k a st'
    | (Throw e, st') => (Throw e, st')
    end.
Definition read {A} (f : Instance -> A) : M A := fun st => (Ok (f (this st)), st).
Definition write (i : Instance) : M unit :=
  fun st => (Ok tt, {| this := i; world := world st |}).

Notation "x <- c ;; k" := (bind c (fun x => k))
  (at level 61, c at next level, right associativity).

Fixpoint mapM {A B} (f : A -> M B) (xs : list A) : M (list B) :=
  match xs with
  | [] => ret []
  | x :: r => y <- f x ;; ys <- mapM f r ;; ret (y :: ys)
  end.

(** Caller-supplied functions, by reference. *)
Variable userConvertor : nat -> RawValue -> M Value.
Variable userSupplier : nat -> M Value.

Definition numberConvertor (v : RawValue) : Value :=
  match v with
  | RUndefined => VUndefined
  | _ => Number v
  end.

Definition callConvertor (c : Convertor) (v : RawValue) : M Value :=
  match c with
  | BooleanConvertor => ret (booleanConvertor v)
  | StringConvertor => ret (stringConvertor v)
  | NumberConvertor => ret (numberConvertor v)
  | UserConvertor f => userConvertor f v
  end.

Definition callSupplier (d : Supplier) : M Value :=
  match d with UserSupplier f => userSupplier f end.

(** [constructor(flagOptions)], with [Deno.args] passed in. *)
Definition constructor (flagOptions : list (string * FlagOptions))
  (Deno_args : list string) : M unit :=
  let declarations := createFlagDeclarations flagOptions in
  write {| rawArgs := parse Deno_args;
           flagDeclarations := declarations;
           desciprion := None |}.

Definition setDesciprion (description : string) : M unit :=
  i <- read id ;;
  write {| rawArgs := rawArgs i;
           flagDeclarations := flagDeclarations i;
           desciprion := Some (trim description) |}.

Definition getRaw (name : string) (tag : Tag) : M (option Token) :=
  tokens <- read rawArgs ;;
  ret (findRaw tokens name tag).

Definition getFlagValue (name : string) : M Value :=
  let getRawFlag name := getRaw name TagFlag in
  decs <- read flagDeclarations ;;
  match map_get decs (normalizeName name) with
  | None => throw (Error (notFoundMessage name))
  | Some dec =>
      flag <- getRawFlag (longName dec) ;;
      match flag with
      | None => throw (Error (notFoundMessage name))
      | Some _ =>
          flag' <- getRawFlag (longName dec) ;;
          let rawValue :=
            match flag' with Some f => token_value f | None => RUndefined end in
          match rawValue with
          | RUndefined =>
              match default dec with
              | Some d => v <- callSupplier d ;; ret (orUndefined v)
              | None => ret VUndefined
              end
          | _ => callConvertor (convertor dec) rawValue
          end
      end
  end.

(** [getFlags()]: the entries are resolved in map order, and the object is
    built from them by [Object.fromEntries]. *)
Definition getFlags : M JsObject :=
  keys <- read (fun i => map_keys (flagDeclarations i)) ;;
  entries <- mapM (fun longName =>
                     value <- getFlagValue longName ;; ret (longName, value))
                  keys ;;
  ret (Object_fromEntries entries).

Definition isHelpRequested : M bool :=
  v <- getFlagValue (fst helpFlagNames) ;; ret (isTrue v).

Definition shouldHelp : M bool := isHelpRequested.

Definition tab (n : nat) : string := spaces (Nat.max n 1 * 2).

Definition names (dec : FlagDeclaration) (indent : nat) : string :=
  let long := "--" ++ longName dec in
  let short :=
    match shortName dec with
    | Some s => if truthy s then "-" ++ s else EmptyString
    | None => EmptyString
    end in
  let text := join ", " (map primary (filter nonEmpty [long; short])) in
  tab indent ++ text.

Definition descriptionLines (dec : FlagDeclaration) (indent : nat) : M string :=
  match description dec with
  | None => throw (TypeError undefinedMapMessage)
  | Some ls =>
      ret (join nl (map (fun l => tab indent ++ l) (map secondary ls)))
  end.

Definition defaultValue (dec : FlagDeclaration) (indent : nat) : M string :=
  match default dec with
  | None => ret EmptyString
  | Some d =>
      v <- callSupplier d ;;
      let serialized := split newline (inspect v) in
      ret (tab indent ++ secondary "Default: "
             ++ join (nl ++ tab (indent + 2)) serialized)
  end.

Definition block (dec : FlagDeclaration) : M string :=
  let n := names dec 1 in
  d <- descriptionLines dec 2 ;;
  dv <- defaultValue dec 2 ;;
  ret (join nl (filter nonEmpty [n; d; dv])).

Definition computeHelpMessage : M string :=
  decs <- read flagDeclarations ;;
  blocks <- mapM block (filter visible (map_values decs)) ;;
  let declarations := join (nl ++ nl) blocks in
  descr <- read desciprion ;;
  let description := match descr with Some s => s | None => EmptyString end in
  ret (join nl (filter (fun s => nonEmpty (trim s))
                       [nl ++ description; nl ++ declarations])).

Definition triggerHelp : M unit :=
  message <- computeHelpMessage ;;
  throw (InfoInterruption message).

Definition isPrintableException (error : Exception) : bool :=
  instanceofPrintableException error.

Definition rethrowUnprintableException (error : Exception) : M unit :=
  if instanceofPrintableException error then ret tt else throw error.

(** *** Notions used in the statements *)

(** The instance with every hidden declaration removed from its map. *)
Definition dropHidden (st : Store) : Store :=
  {| this :=
       {| rawArgs := rawArgs (this st);
          flagDeclarations :=
            filter (fun e => visible (snd e)) (flagDeclarations (this st));
          desciprion := desciprion (this st) |};
     world := world st |}.

(** Two stores that differ at most in the declaration map. *)
Definition sameButDeclarations (st1 st2 : Store) : Prop :=
  rawArgs (this st1) = rawArgs (this st2) /\
  desciprion (this st1) = desciprion (this st2) /\
  world st1 = world st2.

(** A computation that does not observe the declaration map: on two such
    stores it yields the same outcome and two such stores again. *)
Definition blind {A} (c : M A) : Prop :=
  forall st1 st2,
    sameButDeclarations st1 st2 ->
    fst (c st1) = fst (c st2) /\
    sameButDeclarations (snd (c st1)) (snd (c st2)).

(** A computation that leaves the instance as it found it. *)
Definition preserves {A} (c : M A) : Prop :=
  forall st, this (snd (c st)) = this st.

(** [computeHelpMessage] from the point where the visible declarations are
    at hand. *)
Definition renderVisible (vis : list FlagDeclaration) : M string :=
  blocks <- mapM block vis ;;
  let declarations := join (nl ++ nl) blocks in
  descr <- read desciprion ;;
  let description := match descr with Some s => s | None => EmptyString end in
  ret (join nl (filter (fun s => nonEmpty (trim s))
                       [nl ++ description; nl ++ declarations])).

(** ** Properties *)

(** *** The declaration map *)

Lemma map_get_set_same (m : DeclMap) (k : string) (d : FlagDeclaration) :
  map_get (map_set m k d) k = Some d.
Proof.
  induction m as [|[k' d'] r IH]; simpl.
  - now rewrite String.eqb_refl.
  - destruct (String.eqb k k') eqn:E; simpl; rewrite E; auto.
Qed.

Lemma map_get_set_other (m : DeclMap) (k k0 : string) (d : FlagDeclaration) :
  k0 <> k -> map_get (map_set m k d) k0 = map_get m k0.
Proof.
  intros Hne. induction m as [|[k' d'] r IH]; simpl.
  - destruct (String.eqb k0 k) eqn:E; auto.
    apply String.eqb_eq in E. contradiction.
  - destruct (String.eqb k k') eqn:E; simpl.
    + apply String.eqb_eq in E. subst k'.
      destruct (String.eqb k0 k) eqn:E0; auto.
      apply String.eqb_eq in E0. contradiction.
    + now rewrite IH.
Qed.

Lemma map_set_In (m : DeclMap) (k k0 : string) (d d0 : FlagDeclaration) :
  In (k0, d0) (map_set m k d) -> In (k0, d0) m \/ (k0 = k /\ d0 = d).
Proof.
  induction m as [|[k' d'] r IH]; simpl.
  - intros [H|[]]. inversion H. auto.
  - destruct (String.eqb k k') eqn:E; simpl.
    + apply String.eqb_eq in E. subst k'.
      intros [H|H]; [inversion H; auto | auto].
    + intros [H|H]; [auto|]. destruct (IH H) as [H'|H']; auto.
Qed.

Lemma new_Map_fold (es : list (string * FlagDeclaration)) :
  new_Map es = fold_left setEntry es [].
Proof. reflexivity. Qed.

Lemma fold_set_In (es : list (string * FlagDeclaration)) :
  forall m k d,
    In (k, d) (fold_left setEntry es m) -> In (k, d) m \/ In (k, d) es.
Proof.
  induction es as [|[k' d'] r IH]; simpl; intros m k d H; auto.
  destruct (IH _ _ _ H) as [H'|H']; auto.
  destruct (map_set_In _ _ _ _ _ H') as [H''|[-> ->]]; auto.
Qed.

Lemma find_append {A} (p : A -> bool) (xs ys : list A) :
  find p (xs ++ ys) =
  match find p xs with Some x => Some x | None => find p ys end.
Proof.
  induction xs as [|x r IH]; simpl; auto. now destruct (p x).
Qed.

(** A lookup in the built map sees the last entry written under the key. *)
Lemma fold_set_get (es : list (string * FlagDeclaration)) :
  forall m k,
    map_get (fold_left setEntry es m) k =
    match find (fun e => String.eqb k (fst e)) (rev es) with
    | Some e => Some (snd e)
    | None => map_get m k
    end.
Proof.
  induction es as [|[k' d'] r IH]; simpl; intros m k; auto.
  rewrite IH, find_append.
  destruct (find _ (rev r)) as [e|]; auto. simpl.
  destruct (String.eqb k k') eqn:E.
  - apply String.eqb_eq in E. subst k'. unfold setEntry. simpl.
    apply map_get_set_same.
  - unfold setEntry. simpl. apply map_get_set_other.
    intros ->. now rewrite String.eqb_refl in E.
Qed.

(** An entry written first under a key that is never written again stays
    first. *)
Lemma fold_set_head (es : list (string * FlagDeclaration)) :
  forall m k d,
    (forall e, In e es -> fst e <> k) ->
    fold_left setEntry es ((k, d) :: m) = (k, d) :: fold_left setEntry es m.
Proof.
  induction es as [|[k' d'] r IH]; simpl; intros m k d Hk; auto.
  assert (Hne : k' <> k) by (apply (Hk (k', d')); auto).
  unfold setEntry at 2. simpl.
  destruct (String.eqb k' k) eqn:E.
  - apply String.eqb_eq in E. contradiction.
  - rewrite IH; auto.
Qed.

Lemma createFlagDeclarations_cons e options :
  createFlagDeclarations (e :: options) =
  fold_left setEntry
    (map (fun declaration => (longName declaration, declaration))
         (map declare options))
    [(longName (declare e), declare e)].
Proof. reflexivity. Qed.

Lemma longName_declare e : longName (declare e) = normalizeName (fst e).
Proof. now destruct e. Qed.

(** *** Computations *)

Lemma bind_Ok {A B} (c : M A) (k : A -> M B) st a st' :
  c st = (Ok a, st') -> bind c k st = k a st'.
Proof. unfold bind. now intros ->. Qed.

Lemma bind_Throw {A B} (c : M A) (k : A -> M B) st e st' :
  c st = (Throw e, st') -> bind c k st = (Throw e, st').
Proof. unfold bind. now intros ->. Qed.

Lemma preserves_ret {A} (a : A) : preserves (ret a).
Proof. intro; reflexivity. Qed.

Lemma preserves_throw {A} e : preserves (@throw A e).
Proof. intro; reflexivity. Qed.

Lemma preserves_read {A} (f : Instance -> A) : preserves (read f).
Proof. intro; reflexivity. Qed.

Lemma preserves_bind {A B} (c : M A) (k : A -> M B) :
  preserves c -> (forall a, preserves (k a)) -> preserves (bind c k).
Proof.
  intros Hc Hk st. unfold bind. specialize (Hc st).
  destruct (c st) as [[a|e] st']; simpl in *.
  - now rewrite Hk.
  - assumption.
Qed.

Lemma preserves_mapM {A B} (f : A -> M B) xs :
  (forall x, preserves (f x)) -> preserves (mapM f xs).
Proof.
  intros Hf. induction xs as [|x r IH]; simpl.
  - apply preserves_ret.
  - apply preserves_bind; auto. intros y.
    apply preserves_bind; auto. intros ys. apply preserves_ret.
Qed.

(** [mapM] throws as soon as one element does. *)
Lemma mapM_throws {A B} (f : A -> M B) xs x :
  In x xs ->
  (forall st, exists e, fst (f x st) = Throw e) ->
  forall st, exists e, fst (mapM f xs st) = Throw e.
Proof.
  intros Hin Hx. induction xs as [|y r IH]; [destruct Hin|].
  intros st. simpl. unfold bind at 1.
  destruct Hin as [->|Hin].
  - destruct (Hx st) as [e He]. destruct (f x st) as [[b|e'] st']; simpl in *.
    + discriminate.
    + eauto.
  - destruct (f y st) as [[b|e'] st']; simpl; [|eauto].
    unfold bind. destruct (IH Hin st') as [e He].
    destruct (mapM f r st') as [[bs|e'] st'']; simpl in *; [discriminate|eauto].
Qed.

(** When [mapM] returns, each result was returned by the function on the
    element at its position. *)
Lemma mapM_Ok_Forall2 {A B} (f : A -> M B) xs :
  forall st ys st',
    mapM f xs st = (Ok ys, st') ->
    Forall2 (fun x y => exists s1 s2, f x s1 = (Ok y, s2)) xs ys.
Proof.
  induction xs as [|x r IH]; simpl; intros st ys st' H.
  - injection H as <- _. constructor.
  - unfold bind at 1 in H.
    destruct (f x st) as [[y|e] s1] eqn:Hx; [|discriminate].
    unfold bind at 1 in H.
    destruct (mapM f r s1) as [[ys'|e] s2] eqn:Hr; [|discriminate].
    injection H as <- _. constructor; eauto.
Qed.

(** *** Tokens *)

Lemma parse_cons a rest :
  parse (a :: rest) =
  if String.prefix "--" a then
    let body := dropPrefix 2 a in
    match splitFirst "="%char body with
    | Some (n, v) => Flag n (RString v) :: parse rest
    | None =>
        match rest with
        | b :: rest' =>
            if String.prefix "-" b
            then Flag body (RBool true) :: parse rest
            else Flag body (RString b) :: parse rest'
        | [] => [Flag body (RBool true)]
        end
    end
  else if String.prefix "-" a then
    let body := dropPrefix 1 a in
    match splitFirst "="%char body with
    | Some (n, v) => Flag (substring01 n) (RString v) :: parse rest
    | None => (map (fun c => Flag c (RBool true)) (chars body) ++ parse rest)%list
    end
  else Command a :: parse rest.
Proof. destruct rest; reflexivity. Qed.

(** No flag token of the tokenizer carries [undefined]: a flag without a
    value carries [true]. *)
Lemma parse_values_defined args :
  forall t, In t (parse args) -> _tag t = TagFlag -> token_value t <> RUndefined.
Proof.
  assert (H : forall n args, length args <= n ->
            forall t, In t (parse args) -> _tag t = TagFlag ->
                      token_value t <> RUndefined).
  { clear args. induction n as [|n IH]; intros args Hlen t Hin Htag.
    - destruct args; [destruct Hin | simpl in Hlen; lia].
    - destruct args as [|a rest]; [destruct Hin|].
      simpl in Hlen. rewrite parse_cons in Hin.
      assert (Hrest : In t (parse rest) -> token_value t <> RUndefined).
      { intros Hr. apply (IH rest); auto. lia. }
      destruct (String.prefix "--" a).
      + cbv zeta in Hin.
        destruct (splitFirst "="%char (dropPrefix 2 a)) as [[n0 v]|].
        * destruct Hin as [<-|Hin]; [discriminate | auto].
        * destruct rest as [|b rest'].
          -- destruct Hin as [<-|[]]. discriminate.
          -- destruct (String.prefix "-" b).
             ++ destruct Hin as [<-|Hin]; [discriminate | auto].
             ++ destruct Hin as [<-|Hin]; [discriminate|].
                apply (IH rest'); auto. simpl in Hlen. lia.
      + destruct (String.prefix "-" a).
        * cbv zeta in Hin.
          destruct (splitFirst "="%char (dropPrefix 1 a)) as [[n0 v]|].
          -- destruct Hin as [<-|Hin]; [discriminate | auto].
          -- apply in_app_or in Hin. destruct Hin as [Hin|Hin]; auto.
             apply in_map_iff in Hin. destruct Hin as (c & <- & _).
             discriminate.
        * destruct Hin as [<-|Hin]; [discriminate | auto]. }
  intros t. apply (H (length args)). lia.
Qed.

(** *** Resolving one flag *)

Lemma getFlagValue_absent_token (name : string) (st : Store) dec :
  map_get (flagDeclarations (this st)) (normalizeName name) = Some dec ->
  findRaw (rawArgs (this st)) (longName dec) TagFlag = None ->
  getFlagValue name st = (Throw (Error (notFoundMessage name)), st).
Proof.
  intros Hd Hf. unfold getFlagValue, getRaw, bind, read, ret. simpl.
  rewrite Hd, Hf. reflexivity.
Qed.

Lemma getFlagValue_token (name : string) (st : Store) dec t :
  map_get (flagDeclarations (this st)) (normalizeName name) = Some dec ->
  findRaw (rawArgs (this st)) (longName dec) TagFlag = Some t ->
  getFlagValue name st =
  match token_value t with
  | RUndefined =>
      match default dec with
      | Some d => bind (callSupplier d) (fun v => ret (orUndefined v)) st
      | None => (Ok VUndefined, st)
      end
  | v => callConvertor (convertor dec) v st
  end.
Proof.
  intros Hd Hf. unfold getFlagValue, getRaw, bind, read, ret.
  cbv beta iota zeta. rewrite Hd. cbv beta iota zeta. rewrite !Hf.
  cbv beta iota zeta.
  destruct (token_value t); try reflexivity.
  destruct (default dec); reflexivity.
Qed.

(** The token found for a name is a token of the asked tag whose name
    normalizes like the asked one; no other name is compared. *)
Lemma findRaw_Some tokens name tag t :
  findRaw tokens name tag = Some t ->
  In t tokens /\ _tag t = tag /\
  normalizeName (token_name t) = normalizeName name.
Proof.
  unfold findRaw. intros H. apply find_some in H. destruct H as [Hin Heq].
  apply filter_In in Hin. destruct Hin as [Hin Htag].
  apply String.eqb_eq in Heq. repeat split; auto.
  destruct t, tag; simpl in *; congruence.
Qed.

Lemma findRaw_None tokens name tag :
  (forall t, In t tokens -> _tag t = tag ->
             normalizeName (token_name t) <> normalizeName name) ->
  findRaw tokens name tag = None.
Proof.
  intros H. destruct (findRaw tokens name tag) as [t|] eqn:E; auto.
  apply findRaw_Some in E. destruct E as (Hin & Htag & Hn).
  exfalso. exact (H t Hin Htag Hn).
Qed.

(** The first matching token in token order is the one found. *)
Lemma findRaw_first tokens name pre t post :
  tokens = (pre ++ t :: post)%list ->
  _tag t = TagFlag ->
  normalizeName (token_name t) = normalizeName name ->
  (forall u, In u pre -> _tag u = TagFlag ->
             normalizeName (token_name u) <> normalizeName name) ->
  findRaw tokens name TagFlag = Some t.
Proof.
  intros -> Htag Hn Hpre. unfold findRaw.
  rewrite filter_app, find_append.
  assert (Hnone : find
            (fun f => String.eqb (normalizeName name)
                                 (normalizeName (token_name f)))
            (filter (fun arg => Tag_eqb (_tag arg) TagFlag) pre) = None).
  { apply (findRaw_None pre name TagFlag). exact Hpre. }
  rewrite Hnone. simpl. rewrite Htag. simpl. rewrite Hn.
  now rewrite String.eqb_refl.
Qed.

(** On the tokens of the tokenizer, a resolution that returns went through
    the convertor: the default supplier is reached only for a token whose
    value is [undefined], and there is none. *)
Lemma getFlagValue_parsed (name : string) (st : Store) Deno_args v st' :
  rawArgs (this st) = parse Deno_args ->
  getFlagValue name st = (Ok v, st') ->
  exists dec t,
    map_get (flagDeclarations (this st)) (normalizeName name) = Some dec /\
    findRaw (parse Deno_args) (longName dec) TagFlag = Some t /\
    token_value t <> RUndefined /\
    callConvertor (convertor dec) (token_value t) st = (Ok v, st').
Proof.
  intros Hraw H.
  destruct (map_get (flagDeclarations (this st)) (normalizeName name))
    as [dec|] eqn:Hd.
  - destruct (findRaw (rawArgs (this st)) (longName dec) TagFlag)
      as [t|] eqn:Hf.
    + rewrite (getFlagValue_token name st dec t Hd Hf) in H.
      rewrite Hraw in Hf. exists dec, t.
      assert (Hv : token_value t <> RUndefined).
      { destruct (findRaw_Some _ _ _ _ Hf) as (Hin & Htag & _).
        exact (parse_values_defined Deno_args t Hin Htag). }
      repeat split; auto.
      destruct (token_value t); [contradiction| |]; exact H.
    + rewrite (getFlagValue_absent_token name st dec Hd Hf) in H. discriminate.
  - unfold getFlagValue, bind, read in H. simpl in H. rewrite Hd in H.
    discriminate.
Qed.

(** C6: a name whose normalized form is no key of the declaration map
    cannot be resolved, whatever the tokens are: resolving it throws the
    not-declared error and leaves the store as it was. *)
Theorem C6_undeclared_name_throws (name : string) (st : Store) :
  map_get (flagDeclarations (this st)) (normalizeName name) = None ->
  getFlagValue name st = (Throw (Error (notFoundMessage name)), st).
Proof.
  intros H. unfold getFlagValue, bind, read. simpl. now rewrite H.
Qed.

(** *** Rendering help *)

Lemma block_without_description dec st :
  description dec = None ->
  block dec st = (Throw (TypeError undefinedMapMessage), st).
Proof.
  intros H. unfold block, descriptionLines, bind. now rewrite H.
Qed.

Lemma computeHelpMessage_throws_when_blocks_throw st :
  (exists e,
     fst (mapM block
            (filter visible (map_values (flagDeclarations (this st)))) st)
     = Throw e) ->
  exists e, fst (computeHelpMessage st) = Throw e.
Proof.
  intros [e He]. unfold computeHelpMessage, bind at 1, read at 1.
  cbv beta iota. unfold bind at 1.
  destruct (mapM block _ st) as [[bs|e'] st'] eqn:Hm; simpl in *.
  - discriminate.
  - eauto.
Qed.

(** C9: a description that is not given is stored as [undefined], not as
    an empty sequence of lines, and rendering the help of an instance that
    holds a visible declaration without description throws. *)
Theorem C9_missing_description_throws :
  (forall name op,
     op_description op = None -> description (declare (name, op)) = None) /\
  (forall (st : Store) dec,
     In dec (map_values (flagDeclarations (this st))) ->
     description dec = None ->
     excludeFromHelp dec = false ->
     exists e, fst (computeHelpMessage st) = Throw e).
Proof.
  split.
  - intros name op H. simpl. now rewrite H.
  - intros st dec Hin Hd Hx.
    apply computeHelpMessage_throws_when_blocks_throw.
    apply mapM_throws with (x := dec).
    + apply filter_In. split; auto. unfold visible. now rewrite Hx.
    + intros st'. rewrite block_without_description by assumption.
      simpl. eauto.
Qed.

(** *** Frame *)

Section Frame.

Hypothesis convertors_keep_instance :
  forall f v, preserves (userConvertor f v).
Hypothesis suppliers_keep_instance :
  forall f, preserves (userSupplier f).

Lemma preserves_callConvertor c v : preserves (callConvertor c v).
Proof. destruct c; simpl; auto using @preserves_ret. Qed.

Lemma preserves_callSupplier d : preserves (callSupplier d).
Proof. destruct d; simpl; auto. Qed.

Lemma preserves_getFlagValue name : preserves (getFlagValue name).
Proof.
  unfold getFlagValue. apply preserves_bind; [apply preserves_read|].
  intros decs. destruct (map_get decs (normalizeName name)) as [dec|];
    [|apply preserves_throw].
  unfold getRaw.
  apply preserves_bind.
  { apply preserves_bind; [apply preserves_read|intro; apply preserves_ret]. }
  intros [t|]; [|apply preserves_throw].
  apply preserves_bind.
  { apply preserves_bind; [apply preserves_read|intro; apply preserves_ret]. }
  intros flag'.
  destruct (match flag' with Some f => token_value f | None => RUndefined end);
    try apply preserves_callConvertor.
  destruct (default dec); [|apply preserves_ret].
  apply preserves_bind; [apply preserves_callSupplier|].
  intro; apply preserves_ret.
Qed.

Lemma preserves_block dec : preserves (block dec).
Proof.
  unfold block. apply preserves_bind.
  - unfold descriptionLines. destruct (description dec);
      [apply preserves_ret | apply preserves_throw].
  - intros d. apply preserves_bind; [|intro; apply preserves_ret].
    unfold defaultValue. destruct (default dec); [|apply preserves_ret].
    apply preserves_bind; [apply preserves_callSupplier|].
    intro; apply preserves_ret.
Qed.

Lemma preserves_computeHelpMessage : preserves computeHelpMessage.
Proof.
  unfold computeHelpMessage.
  apply preserves_bind; [apply preserves_read|]. intros decs.
  apply preserves_bind; [apply preserves_mapM, preserves_block|].
  intros blocks.
  apply preserves_bind; [apply preserves_read|]. intro. apply preserves_ret.
Qed.

(** C10: when no caller-supplied convertor or default supplier changes the
    instance, no query does: after [getFlags], [isHelpRequested],
    [computeHelpMessage], the resolution of any single name and
    [triggerHelp], the tokens, the declaration map and the description are
    the ones found before, whether the query returns or throws. *)
Theorem C10_queries_preserve_instance (st : Store) :
  this (snd (getFlags st)) = this st /\
  this (snd (isHelpRequested st)) = this st /\
  this (snd (computeHelpMessage st)) = this st /\
  (forall name, this (snd (getFlagValue name st)) = this st) /\
  this (snd (triggerHelp st)) = this st.
Proof.
  repeat split.
  - revert st. unfold getFlags.
    apply preserves_bind; [apply preserves_read|]. intros keys.
    apply preserves_bind; [|intro; apply preserves_ret].
    apply preserves_mapM. intros k.
    apply preserves_bind; [apply preserves_getFlagValue|].
    intro; apply preserves_ret.
  - revert st. unfold isHelpRequested.
    apply preserves_bind; [apply preserves_getFlagValue|].
    intro; apply preserves_ret.
  - apply preserves_computeHelpMessage.
  - intros name. apply preserves_getFlagValue.
  - revert st. unfold triggerHelp.
    apply preserves_bind; [apply preserves_computeHelpMessage|].
    intro; apply preserves_throw.
Qed.

End Frame.

(** *** Hidden declarations *)

Lemma filter_visible_dropped (m : DeclMap) :
  filter visible (map_values (filter (fun e => visible (snd e)) m)) =
  filter visible (map_values m).
Proof.
  induction m as [|[k d] r IH]; simpl; auto.
  destruct (visible d) eqn:E; simpl; rewrite ?E, IH; reflexivity.
Qed.

Lemma createHelp_hidden options :
  (forall e, In e options -> normalizeName (fst e) <> fst helpFlagNames) ->
  filter visible (map_values (createFlagDeclarations (createHelp ++ options))) =
  filter visible (map_values (createFlagDeclarations options)).
Proof.
  intros Hno. unfold createHelp. simpl app.
  rewrite createFlagDeclarations_cons, fold_set_head.
  - reflexivity.
  - intros e Hin. apply in_map_iff in Hin. destruct Hin as (d & <- & Hin).
    apply in_map_iff in Hin. destruct Hin as (e' & <- & Hin).
    simpl fst. rewrite longName_declare. exact (Hno e' Hin).
Qed.

Section HelpVisibility.

Hypothesis suppliers_blind : forall f, blind (userSupplier f).

Lemma blind_ret {A} (a : A) : blind (ret a).
Proof. intros st1 st2 H. split; [reflexivity|exact H]. Qed.

Lemma blind_throw {A} e : blind (@throw A e).
Proof. intros st1 st2 H. split; [reflexivity|exact H]. Qed.

Lemma blind_bind {A B} (c : M A) (k : A -> M B) :
  blind c -> (forall a, blind (k a)) -> blind (bind c k).
Proof.
  intros Hc Hk st1 st2 H. unfold bind.
  destruct (Hc st1 st2 H) as [Hr Hs].
  destruct (c st1) as [[a1|e1] s1], (c st2) as [[a2|e2] s2];
    simpl in *; try discriminate.
  - injection Hr as ->. now apply Hk.
  - injection Hr as ->. split; [reflexivity|exact Hs].
Qed.

Lemma blind_mapM {A B} (f : A -> M B) xs :
  (forall x, blind (f x)) -> blind (mapM f xs).
Proof.
  intros Hf. induction xs as [|x r IH]; simpl.
  - apply blind_ret.
  - apply blind_bind; auto. intros y.
    apply blind_bind; auto. intros ys. apply blind_ret.
Qed.

Lemma blind_read_desciprion : blind (read desciprion).
Proof.
  intros st1 st2 H. unfold read. simpl. split; [|exact H].
  destruct H as (_ & Hd & _). now rewrite Hd.
Qed.

Lemma blind_block dec : blind (block dec).
Proof.
  unfold block. apply blind_bind.
  - unfold descriptionLines. destruct (description dec);
      [apply blind_ret | apply blind_throw].
  - intros d. apply blind_bind; [|intro; apply blind_ret].
    unfold defaultValue. destruct (default dec) as [[f]|]; [|apply blind_ret].
    apply blind_bind; [apply suppliers_blind|]. intro; apply blind_ret.
Qed.

Lemma blind_renderVisible vis : blind (renderVisible vis).
Proof.
  unfold renderVisible.
  apply blind_bind; [apply blind_mapM, blind_block|]. intros blocks.
  apply blind_bind; [apply blind_read_desciprion|]. intro. apply blind_ret.
Qed.

Lemma computeHelpMessage_renderVisible st :
  computeHelpMessage st =
  renderVisible (filter visible (map_values (flagDeclarations (this st)))) st.
Proof. reflexivity. Qed.

(** Two instances with the same visible declarations render alike. *)
Lemma computeHelpMessage_visible_only st1 st2 :
  sameButDeclarations st1 st2 ->
  filter visible (map_values (flagDeclarations (this st1))) =
  filter visible (map_values (flagDeclarations (this st2))) ->
  fst (computeHelpMessage st1) = fst (computeHelpMessage st2) /\
  world (snd (computeHelpMessage st1)) = world (snd (computeHelpMessage st2)).
Proof.
  intros Hs Hv. rewrite !computeHelpMessage_renderVisible, Hv.
  destruct (blind_renderVisible
              (filter visible (map_values (flagDeclarations (this st2))))
              st1 st2 Hs) as [Hr (_ & _ & Hw)].
  split; assumption.
Qed.

End HelpVisibility.

Lemma Forall2_filter_visible (P : FlagDeclaration -> string -> Prop) decs :
  forall blocks,
    Forall2 P (filter visible decs) blocks ->
    Forall2 (fun dec b => excludeFromHelp dec = false /\ P dec b)
            (filter visible decs) blocks.
Proof.
  induction decs as [|d r IH]; simpl; intros blocks H.
  - inversion H. constructor.
  - destruct (visible d) eqn:E; auto.
    inversion H; subst. constructor; auto. split; auto.
    unfold visible in E. now destruct (excludeFromHelp d).
Qed.

(** C8: the help string is put together from one block per declaration
    that is not marked [excludeFromHelp], in map order, and from nothing
    else but the description; the declaration of [createHelp] is among the
    hidden ones unless the options declare [help] themselves.  So, for
    default suppliers that do not observe the declaration map, removing
    the hidden declarations, or leaving [createHelp] out, changes neither
    the rendered result nor what rendering does to the rest of the
    program. *)
Theorem C8_hidden_declarations_not_rendered :
  (forall st s st',
     computeHelpMessage st = (Ok s, st') ->
     exists blocks,
       Forall2 (fun dec b =>
                  excludeFromHelp dec = false /\
                  exists s1 s2, block dec s1 = (Ok b, s2))
               (filter visible (map_values (flagDeclarations (this st))))
               blocks /\
       s = join nl
             (filter (fun x => nonEmpty (trim x))
                [nl ++ match desciprion (this st') with
                       | Some d => d
                       | None => EmptyString
                       end;
                 nl ++ join (nl ++ nl) blocks])) /\
  (forall options,
     (forall e, In e options -> normalizeName (fst e) <> fst helpFlagNames) ->
     filter visible
       (map_values (createFlagDeclarations (createHelp ++ options))) =
     filter visible (map_values (createFlagDeclarations options))) /\
  ((forall f, blind (userSupplier f)) ->
   (forall st,
      fst (computeHelpMessage st) = fst (computeHelpMessage (dropHidden st)) /\
      world (snd (computeHelpMessage st)) =
      world (snd (computeHelpMessage (dropHidden st)))) /\
   (forall options Deno_args st0,
      (forall e, In e options -> normalizeName (fst e) <> fst helpFlagNames) ->
      let withHelp := snd (constructor (createHelp ++ options) Deno_args st0) in
      let without := snd (constructor options Deno_args st0) in
      fst (computeHelpMessage withHelp) = fst (computeHelpMessage without) /\
      world (snd (computeHelpMessage withHelp)) =
      world (snd (computeHelpMessage without)))).
Proof.
  split; [|split].
  - intros st s st' H.
    unfold computeHelpMessage, bind at 1, read at 1 in H.
    cbv beta iota in H. unfold bind at 1 in H.
    destruct (mapM block _ st) as [[blocks|e] s1] eqn:Hm; [|discriminate].
    unfold bind, read, ret in H. simpl in H.
    injection H as <- <-. exists blocks. split; [|reflexivity].
    apply Forall2_filter_visible.
    exact (mapM_Ok_Forall2 block _ _ _ _ Hm).
  - exact createHelp_hidden.
  - intros Hblind. split.
    + intros st. apply computeHelpMessage_visible_only; auto.
      * repeat split.
      * simpl. now rewrite filter_visible_dropped.
    + intros options Deno_args st0 Hno withHelp without.
      apply computeHelpMessage_visible_only; auto.
      * repeat split.
      * simpl. now apply createHelp_hidden.
Qed.

(** *** Triggering help *)

(** C7 (amended): [triggerHelp] raises the help interruption exactly when
    rendering returns: the interruption then carries the rendered string
    and is classified as printable; when rendering throws, [triggerHelp]
    throws what rendering threw. *)
Theorem C7_triggerHelp_raises_rendered_help (st : Store) r st' :
  computeHelpMessage st = (r, st') ->
  match r with
  | Ok message =>
      triggerHelp st = (Throw (InfoInterruption message), st') /\
      isPrintableException (InfoInterruption message) = true
  | Throw e => triggerHelp st = (Throw e, st')
  end.
Proof.
  intros H. unfold triggerHelp, bind. rewrite H.
  destruct r; [split|]; reflexivity.
Qed.

(** *** Building the declarations *)

Lemma find_map {A B} (p : B -> bool) (g : A -> B) (xs : list A) :
  find p (map g xs) = option_map g (find (fun x => p (g x)) xs).
Proof.
  induction xs as [|x r IH]; simpl; auto. now destruct (p (g x)).
Qed.

(** C3 (amended): construction never fails, and under each key the map
    holds the declaration of the last option whose name normalizes to that
    key; earlier ones of the same normalized name are overwritten. *)
Theorem C3_construction_keeps_last_declaration
  (options : list (string * FlagOptions)) (Deno_args : list string)
  (st : Store) :
  fst (constructor options Deno_args st) = Ok tt /\
  forall k,
    map_get (flagDeclarations (this (snd (constructor options Deno_args st)))) k
    = option_map declare
        (find (fun e => String.eqb k (normalizeName (fst e))) (rev options)).
Proof.
  split; [reflexivity|]. intros k. simpl.
  unfold createFlagDeclarations. rewrite new_Map_fold, fold_set_get.
  rewrite map_map, <- map_rev, find_map. simpl.
  assert (Hext : forall l,
    find (fun x => String.eqb k (longName (declare x))) l =
    find (fun e => String.eqb k (normalizeName (fst e))) l).
  { intros l. induction l as [|x r IH]; simpl; auto.
    now rewrite longName_declare, IH. }
  rewrite Hext. now destruct (find _ (rev options)).
Qed.

Lemma find_all_false {A} (p : A -> bool) (xs : list A) :
  (forall x, In x xs -> p x = false) -> find p xs = None.
Proof.
  induction xs as [|x r IH]; simpl; intros H; [reflexivity|].
  rewrite (H x (or_introl eq_refl)). apply IH. intros y Hy. apply H. now right.
Qed.

Lemma map_get_In (m : DeclMap) (k : string) (d : FlagDeclaration) :
  map_get m k = Some d -> In (k, d) m.
Proof.
  induction m as [|[k' d'] r IH]; simpl; [discriminate|].
  destruct (String.eqb k k') eqn:E.
  - apply String.eqb_eq in E. subst k'. intros [= ->]. now left.
  - intros H. right. now apply IH.
Qed.

Lemma createFlagDeclarations_get options k :
  map_get (createFlagDeclarations options) k =
  option_map declare
    (find (fun e => String.eqb k (normalizeName (fst e))) (rev options)).
Proof.
  unfold createFlagDeclarations. rewrite new_Map_fold, fold_set_get.
  rewrite map_map, <- map_rev, find_map. simpl.
  assert (Hext : forall l,
    find (fun x => String.eqb k (longName (declare x))) l =
    find (fun e => String.eqb k (normalizeName (fst e))) l).
  { intros l. induction l as [|x r IH]; simpl; auto.
    now rewrite longName_declare, IH. }
  rewrite Hext. now destruct (find _ (rev options)).
Qed.

(** C5 (amended): an option that no later option of the same normalized
    name overwrites is filed under its whole name, trimmed and lower-cased,
    with no split at a comma: the declaration found under that key has the
    key as its long name, and its short name is the [shortName] option,
    normalized and cut to one character, absent when the option is missing
    or empty.  Conversely every entry of the built map comes from one
    option in this way, so no key is a part of a name. *)
Theorem C5_names_from_key_and_option
  (options : list (string * FlagOptions)) :
  (forall pre name op post,
     options = (pre ++ (name, op) :: post)%list ->
     (forall e, In e post -> normalizeName (fst e) <> normalizeName name) ->
     exists dec,
       map_get (createFlagDeclarations options) (normalizeName name)
       = Some dec /\
       In (normalizeName name, dec) (createFlagDeclarations options) /\
       longName dec = normalizeName name /\
       shortName dec =
         match op_shortName op with
         | Some s => if truthy s then Some (normalizeShortName s) else None
         | None => None
         end) /\
  (forall k dec,
     In (k, dec) (createFlagDeclarations options) ->
     exists name op,
       In (name, op) options /\
       k = normalizeName name /\
       longName dec = normalizeName name /\
       shortName dec =
         match op_shortName op with
         | Some s => if truthy s then Some (normalizeShortName s) else None
         | None => None
         end).
Proof.
  split.
  - intros pre name op post -> Hpost.
    assert (Hget : map_get
                     (createFlagDeclarations (pre ++ (name, op) :: post))
                     (normalizeName name) = Some (declare (name, op))).
    { rewrite createFlagDeclarations_get, rev_app_distr. simpl rev.
      rewrite !find_append.
      rewrite find_all_false.
      - simpl. now rewrite String.eqb_refl.
      - intros e He. apply in_rev in He.
        destruct (String.eqb (normalizeName name) (normalizeName (fst e)))
          eqn:E; [|reflexivity].
        apply String.eqb_eq in E. symmetry in E.
        now elim (Hpost e He). }
    exists (declare (name, op)). repeat split.
    + exact Hget.
    + now apply map_get_In.
  - intros k dec Hin. unfold createFlagDeclarations in Hin.
    rewrite new_Map_fold in Hin.
    apply fold_set_In in Hin. destruct Hin as [[]|Hin].
    apply in_map_iff in Hin. destruct Hin as (d & Heq & Hin).
    apply in_map_iff in Hin. destruct Hin as ([name op] & <- & Hin).
    injection Heq as <- <-.
    exists name, op. repeat split; auto.
Qed.

(** *** The boolean convertor *)

(** C4 (amended): the boolean convertor always returns a boolean and never
    fails; it maps [undefined] and [false] to [false], and [true] and every
    string reading [true] or [1] once lower-cased and trimmed to [true]; a
    declared boolean flag whose token carries the bare-presence value
    [true] resolves to [true]. *)
Theorem C4_booleanConvertor_truth_table :
  (forall v, exists b, booleanConvertor v = VBool b) /\
  booleanConvertor RUndefined = VBool false /\
  booleanConvertor (RBool false) = VBool false /\
  booleanConvertor (RBool true) = VBool true /\
  (forall s,
     trim (toLowerCase s) = "true" \/ trim (toLowerCase s) = "1" ->
     booleanConvertor (RString s) = VBool true) /\
  (forall name (st : Store) dec t,
     map_get (flagDeclarations (this st)) (normalizeName name) = Some dec ->
     convertor dec = BooleanConvertor ->
     findRaw (rawArgs (this st)) (longName dec) TagFlag = Some t ->
     token_value t = RBool true ->
     getFlagValue name st = (Ok (VBool true), st)).
Proof.
  repeat split.
  - intros [| [|] | s]; simpl; eauto.
    destruct (String.eqb (trim (toLowerCase s)) "true"),
             (String.eqb (trim (toLowerCase s)) "1"); eauto.
  - intros s [H|H]; simpl; rewrite H; reflexivity.
  - intros name st dec t Hd Hc Hf Hv.
    rewrite (getFlagValue_token name st dec t Hd Hf), Hv, Hc. reflexivity.
Qed.

(** *** Flags without a token *)

(** C1: with [port] declared with a default supplier and no argument
    given, resolving [port] throws the not-declared error, from the single
    resolution and from [getFlags] alike; the store is left as it was, so
    the default supplier is not invoked. *)
Theorem C1_absent_flag_throws_not_declared (st0 : Store) :
  let st := snd (constructor portOptions [] st0) in
  getFlagValue "port" st = (Throw (Error (notFoundMessage "port")), st) /\
  getFlags st = (Throw (Error (notFoundMessage "port")), st).
Proof. split; reflexivity. Qed.

(** C2: with [port] declared with short name [p], the arguments
    [-p 9090] are tokenized into the flag [p] and the command [9090], and
    resolving [port] throws the not-declared error: the short name is not
    compared. *)
Theorem C2_short_name_token_not_found (st0 : Store) :
  let st := snd (constructor portOptions ["-p"; "9090"] st0) in
  rawArgs (this st) = [Flag "p" (RBool true); Command "9090"] /\
  map_get (flagDeclarations (this st)) "port" =
    Some {| longName := "port"; shortName := Some "p"; description := None;
            default := Some (UserSupplier 0); convertor := NumberConvertor;
            excludeFromHelp := false |} /\
  getFlagValue "port" st = (Throw (Error (notFoundMessage "port")), st).
Proof. repeat split. Qed.

(** ** Further properties *)

(** *** Strings *)

Lemma isSpace_lowerChar c : isSpace (lowerChar c) = isSpace c.
Proof. destruct c as [[] [] [] [] [] [] [] []]; reflexivity. Qed.

Lemma lowerChar_idempotent c : lowerChar (lowerChar c) = lowerChar c.
Proof. destruct c as [[] [] [] [] [] [] [] []]; reflexivity. Qed.

Lemma toLowerCase_idempotent s : toLowerCase (toLowerCase s) = toLowerCase s.
Proof.
  induction s as [|c r IH]; simpl; [reflexivity|].
  now rewrite lowerChar_idempotent, IH.
Qed.

Lemma isEmpty_toLowerCase s : isEmpty (toLowerCase s) = isEmpty s.
Proof. now destruct s. Qed.

Lemma trimStart_toLowerCase s :
  trimStart (toLowerCase s) = toLowerCase (trimStart s).
Proof.
  induction s as [|c r IH]; simpl; [reflexivity|].
  rewrite isSpace_lowerChar. now destruct (isSpace c).
Qed.

Lemma trimEnd_toLowerCase s :
  trimEnd (toLowerCase s) = toLowerCase (trimEnd s).
Proof.
  induction s as [|c r IH]; simpl; [reflexivity|].
  rewrite isSpace_lowerChar, IH, isEmpty_toLowerCase.
  now destruct (isSpace c && isEmpty (trimEnd r)).
Qed.

Lemma trim_toLowerCase s : trim (toLowerCase s) = toLowerCase (trim s).
Proof. unfold trim. now rewrite trimStart_toLowerCase, trimEnd_toLowerCase. Qed.

Lemma trimEnd_idempotent s : trimEnd (trimEnd s) = trimEnd s.
Proof.
  induction s as [|c r IH]; simpl; [reflexivity|].
  destruct (isSpace c && isEmpty (trimEnd r)) eqn:E; [reflexivity|].
  simpl. now rewrite IH, E.
Qed.

(** A string is [headed] when it does not start with white space. *)
Lemma trimStart_headed s :
  trimStart s = EmptyString \/
  exists c r, trimStart s = String c r /\ isSpace c = false.
Proof.
  induction s as [|c r IH]; simpl; auto.
  destruct (isSpace c) eqn:E; eauto.
Qed.

Lemma trimStart_trim s : trimStart (trim s) = trim s.
Proof.
  unfold trim. destruct (trimStart_headed s) as [->|(c & r & -> & Hc)].
  - reflexivity.
  - simpl. rewrite Hc. simpl. now rewrite Hc.
Qed.

Lemma trim_idempotent s : trim (trim s) = trim s.
Proof.
  unfold trim at 1. rewrite trimStart_trim. unfold trim.
  apply trimEnd_idempotent.
Qed.

Lemma trim_space_head c s : isSpace c = true -> trim (String c s) = trim s.
Proof. intros H. unfold trim. simpl. now rewrite H. Qed.

Lemma normalizeName_twice name :
  normalizeName (normalizeName name) = normalizeName name.
Proof.
  unfold normalizeName.
  now rewrite trim_toLowerCase, toLowerCase_idempotent, trim_idempotent.
Qed.

(** X1: normalizing a name twice is normalizing it once, and the result
    neither starts nor ends with white space: a normalized long name, used
    again as a query or as a key, stays what it is. *)
Theorem X1_normalizeName_idempotent (name : string) :
  normalizeName (normalizeName name) = normalizeName name /\
  trim (normalizeName name) = normalizeName name /\
  toLowerCase (normalizeName name) = normalizeName name.
Proof.
  split; [apply normalizeName_twice|]. unfold normalizeName. split.
  - now rewrite trim_toLowerCase, trim_idempotent.
  - apply toLowerCase_idempotent.
Qed.

Lemma split_not_nil sep s : split sep s <> [].
Proof.
  destruct s as [|c r]; simpl; [discriminate|].
  destruct (Ascii.eqb c sep); [discriminate|].
  destruct (split sep r); discriminate.
Qed.

Lemma join_cons sep x y ys :
  join sep (x :: y :: ys) = x ++ sep ++ join sep (y :: ys).
Proof. reflexivity. Qed.

Lemma join_split sep s : join (String sep EmptyString) (split sep s) = s.
Proof.
  induction s as [|c r IH]; [reflexivity|]. simpl split.
  destruct (Ascii.eqb c sep) eqn:E.
  - apply Ascii.eqb_eq in E. subst c.
    destruct (split sep r) as [|h t] eqn:Hs; [now apply split_not_nil in Hs|].
    rewrite join_cons, IH. reflexivity.
  - destruct (split sep r) as [|h t] eqn:Hs; [now apply split_not_nil in Hs|].
    destruct t as [|y ys].
    + simpl in *. now rewrite IH.
    + rewrite join_cons. rewrite join_cons in IH. cbn [append] in *.
      now rewrite IH.
Qed.

Lemma split_lines_free sep s :
  Forall (fun l => hasChar sep l = false) (split sep s).
Proof.
  induction s as [|c r IH]; simpl.
  - constructor; [reflexivity|constructor].
  - destruct (Ascii.eqb c sep) eqn:E.
    + constructor; [reflexivity|exact IH].
    + destruct (split sep r) as [|h t]; [repeat constructor; simpl; now rewrite E|].
      inversion IH; subst. constructor; auto. simpl. now rewrite E.
Qed.

(** X2: a description that is given is stored as the lines of its trimmed
    text: at least one line, none containing a line break, and joined by
    line breaks they give the trimmed text back. *)
Theorem X2_description_lines_round_trip (name d : string) (op : FlagOptions) :
  op_description op = Some d ->
  exists ls,
    description (declare (name, op)) = Some ls /\
    ls <> [] /\
    Forall (fun l => hasChar newline l = false) ls /\
    join nl ls = trim d.
Proof.
  intros H. exists (split newline (trim d)). simpl. rewrite H.
  repeat split.
  - apply split_not_nil.
  - apply split_lines_free.
  - apply join_split.
Qed.

(** *** The built map *)

Lemma map_keys_set m k d :
  map_keys (map_set m k d) =
  if in_dec string_dec k (map_keys m) then map_keys m
  else (map_keys m ++ [k])%list.
Proof.
  induction m as [|[k' d'] r IH]; simpl.
  - reflexivity.
  - destruct (String.eqb k k') eqn:E.
    + apply String.eqb_eq in E. subst k'. simpl.
      destruct (string_dec k k) as [_|Hn]; [reflexivity|now elim Hn].
    + simpl. rewrite IH. unfold map_keys.
      destruct (string_dec k' k) as [->|Hn].
      * now rewrite String.eqb_refl in E.
      * destruct (in_dec string_dec k (map fst r)); reflexivity.
Qed.

Lemma new_Map_keys es :
  map_keys (new_Map es) = rev (nodup string_dec (rev (map fst es))).
Proof.
  rewrite new_Map_fold.
  induction es as [|e l IH] using rev_ind; [reflexivity|].
  rewrite fold_left_app. simpl. unfold setEntry at 1.
  rewrite map_keys_set, IH, map_app, rev_app_distr. simpl.
  set (L := rev (map fst l)).
  destruct (in_dec string_dec (fst e) (rev (nodup string_dec L))) as [H|H],
           (in_dec string_dec (fst e) L) as [H'|H']; simpl; try reflexivity.
  - apply in_rev, nodup_In in H. contradiction.
  - elim H. apply -> in_rev. now apply nodup_In.
Qed.

Lemma createFlagDeclarations_keys options :
  map_keys (createFlagDeclarations options) =
  rev (nodup string_dec
         (rev (map (fun e => normalizeName (fst e)) options))).
Proof.
  unfold createFlagDeclarations. rewrite new_Map_keys, !map_map. simpl.
  do 3 f_equal. apply map_ext. intros e. apply longName_declare.
Qed.

(** X3: the keys of the built map are the normalized names of the options,
    each once, in the order in which they first occur; so no key occurs
    twice. *)
Theorem X3_keys_in_order_of_first_occurrence
  (options : list (string * FlagOptions)) :
  map_keys (createFlagDeclarations options) =
    rev (nodup string_dec
           (rev (map (fun e => normalizeName (fst e)) options))) /\
  NoDup (map_keys (createFlagDeclarations options)).
Proof.
  split; [apply createFlagDeclarations_keys|].
  rewrite createFlagDeclarations_keys.
  apply NoDup_rev, NoDup_nodup.
Qed.

Lemma substring01_length s : String.length (substring01 s) <= 1.
Proof. destruct s; simpl; lia. Qed.

Lemma createFlagDeclarations_In options k dec :
  In (k, dec) (createFlagDeclarations options) ->
  exists name op, In (name, op) options /\ k = normalizeName name /\
                  dec = declare (name, op).
Proof.
  intros Hin. unfold createFlagDeclarations in Hin.
  rewrite new_Map_fold in Hin.
  apply fold_set_In in Hin. destruct Hin as [[]|Hin].
  apply in_map_iff in Hin. destruct Hin as (d & Heq & Hin).
  apply in_map_iff in Hin. destruct Hin as ([name op] & <- & Hin).
  injection Heq as <- <-. exists name, op. auto.
Qed.

(** X4: every entry of the built map is filed under the long name of its
    declaration; that long name is normalized, and a short name, when
    there is one, has at most one character. *)
Theorem X4_entries_well_formed
  (options : list (string * FlagOptions)) (k : string) (dec : FlagDeclaration) :
  In (k, dec) (createFlagDeclarations options) ->
  k = longName dec /\
  normalizeName (longName dec) = longName dec /\
  (forall s, shortName dec = Some s -> String.length s <= 1).
Proof.
  intros Hin.
  destruct (createFlagDeclarations_In _ _ _ Hin) as (name & op & _ & -> & ->).
  repeat split.
  - simpl. apply normalizeName_twice.
  - intros s. simpl. destruct (op_shortName op) as [sn|]; [|discriminate].
    destruct (truthy sn); [|discriminate].
    intros [= <-]. apply substring01_length.
Qed.

(** X5: a name that was declared is found in the built map however the
    query is cased or padded, and what is found carries the normalized
    name as its long name. *)
Theorem X5_declared_name_is_found
  (options : list (string * FlagOptions)) (name q : string) (op : FlagOptions) :
  In (name, op) options ->
  normalizeName q = normalizeName name ->
  exists dec,
    map_get (createFlagDeclarations options) (normalizeName q) = Some dec /\
    longName dec = normalizeName name.
Proof.
  intros Hin Hq. rewrite Hq.
  unfold createFlagDeclarations. rewrite new_Map_fold, fold_set_get.
  set (es := map (fun declaration => (longName declaration, declaration))
                 (map declare options)).
  destruct (find (fun e => String.eqb (normalizeName name) (fst e)) (rev es))
    as [e|] eqn:Hf.
  - apply find_some in Hf. destruct Hf as [He Heq].
    apply String.eqb_eq in Heq. apply in_rev in He.
    apply in_map_iff in He. destruct He as (d & <- & _).
    exists d. simpl in *. auto.
  - exfalso.
    assert (He : In (normalizeName name, declare (name, op)) (rev es)).
    { apply -> in_rev. apply in_map_iff. exists (declare (name, op)).
      split; [reflexivity|]. now apply in_map. }
    apply (find_none _ _ Hf) in He. simpl in He.
    now rewrite String.eqb_refl in He.
Qed.

(** *** Resolution *)

Lemma getFlagValue_undeclared (name : string) (st : Store) :
  map_get (flagDeclarations (this st)) (normalizeName name) = None ->
  getFlagValue name st = (Throw (Error (notFoundMessage name)), st).
Proof.
  intros H. unfold getFlagValue, bind, read. simpl. now rewrite H.
Qed.

(** X6: two queries that normalize alike resolve alike: either both
    resolutions are the same computation outcome, or both throw the
    not-declared error, each naming its own query. *)
Theorem X6_query_name_insensitive (n1 n2 : string) (st : Store) :
  normalizeName n1 = normalizeName n2 ->
  getFlagValue n1 st = getFlagValue n2 st \/
  (getFlagValue n1 st = (Throw (Error (notFoundMessage n1)), st) /\
   getFlagValue n2 st = (Throw (Error (notFoundMessage n2)), st)).
Proof.
  intros Hn.
  destruct (map_get (flagDeclarations (this st)) (normalizeName n1))
    as [dec|] eqn:Hd.
  - assert (Hd2 := Hd). rewrite Hn in Hd2.
    destruct (findRaw (rawArgs (this st)) (longName dec) TagFlag)
      as [t|] eqn:Hf.
    + left. now rewrite (getFlagValue_token n1 st dec t Hd Hf),
                        (getFlagValue_token n2 st dec t Hd2 Hf).
    + right. split; now apply getFlagValue_absent_token with (dec := dec).
  - right. split; apply getFlagValue_undeclared; [|rewrite <- Hn]; exact Hd.
Qed.

(** X7: among the tokens, the first flag whose name normalizes like the
    declared long name decides the resolution; commands and later flags
    are not looked at.  A value other than [undefined] goes to the
    convertor, whose outcome, returned or thrown, is the outcome of the
    resolution; the value [undefined] goes to the default supplier, with
    [null] turned into [undefined], or gives [undefined] when there is
    none. *)
Theorem X7_first_matching_flag_decides
  (name : string) (st : Store) (dec : FlagDeclaration)
  (pre post : list Token) (n : string) (v : RawValue) :
  map_get (flagDeclarations (this st)) (normalizeName name) = Some dec ->
  rawArgs (this st) = (pre ++ Flag n v :: post)%list ->
  normalizeName n = normalizeName (longName dec) ->
  (forall u, In u pre -> _tag u = TagFlag ->
             normalizeName (token_name u) <> normalizeName (longName dec)) ->
  getFlagValue name st =
  match v with
  | RUndefined =>
      match default dec with
      | Some d => bind (callSupplier d) (fun x => ret (orUndefined x)) st
      | None => (Ok VUndefined, st)
      end
  | _ => callConvertor (convertor dec) v st
  end.
Proof.
  intros Hd Hraw Hn Hpre.
  assert (Hf : findRaw (rawArgs (this st)) (longName dec) TagFlag
               = Some (Flag n v)).
  { apply findRaw_first with (pre := pre) (post := post); auto. }
  rewrite (getFlagValue_token name st dec _ Hd Hf). simpl token_value.
  destruct v; reflexivity.
Qed.

(** X8: the default is computed anew on every resolution: resolving twice
    a flag whose token carries [undefined] calls the default supplier
    twice, the second call running in the store the first one left. *)
Theorem X8_default_supplied_afresh
  (name : string) (st : Store) (dec : FlagDeclaration) (t : Token)
  (d : Supplier) :
  map_get (flagDeclarations (this st)) (normalizeName name) = Some dec ->
  findRaw (rawArgs (this st)) (longName dec) TagFlag = Some t ->
  token_value t = RUndefined ->
  default dec = Some d ->
  (forall s, this (snd (callSupplier d s)) = this s) ->
  bind (getFlagValue name)
       (fun a => bind (getFlagValue name) (fun b => ret (a, b))) st =
  bind (callSupplier d)
       (fun a => bind (callSupplier d)
                      (fun b => ret (orUndefined a, orUndefined b))) st.
Proof.
  intros Hd Hf Hv Hdef Hkeep.
  assert (Hg : forall s, this s = this st ->
             getFlagValue name s =
             bind (callSupplier d) (fun x => ret (orUndefined x)) s).
  { intros s Hs. rewrite <- Hs in Hd, Hf.
    now rewrite (getFlagValue_token name s dec t Hd Hf), Hv, Hdef. }
  unfold bind. rewrite (Hg st eq_refl). unfold bind, ret.
  assert (H1 := Hkeep st).
  destruct (callSupplier d st) as [[a|e] st1]; simpl in H1; [|reflexivity].
  rewrite (Hg st1 H1). unfold bind, ret.
  destruct (callSupplier d st1) as [[b|e] st2]; reflexivity.
Qed.

Lemma getFlagValue_Ok_inv (name : string) (st : Store) v st' :
  getFlagValue name st = (Ok v, st') ->
  exists dec t,
    map_get (flagDeclarations (this st)) (normalizeName name) = Some dec /\
    findRaw (rawArgs (this st)) (longName dec) TagFlag = Some t.
Proof.
  intros H.
  destruct (map_get (flagDeclarations (this st)) (normalizeName name))
    as [dec|] eqn:Hd.
  - destruct (findRaw (rawArgs (this st)) (longName dec) TagFlag)
      as [t|] eqn:Hf; eauto.
    rewrite (getFlagValue_absent_token name st dec Hd Hf) in H. discriminate.
  - rewrite (getFlagValue_undeclared name st Hd) in H. discriminate.
Qed.

Lemma mapM_tagged_keys {A B} (f : A -> M B) ks :
  forall st ys st',
    mapM (fun k => bind (f k) (fun v => ret (k, v))) ks st = (Ok ys, st') ->
    map fst ys = ks.
Proof.
  induction ks as [|k r IH]; simpl; intros st ys st' H.
  - now injection H as <- _.
  - unfold bind at 1 2 in H.
    destruct (f k st) as [[v|e] s1]; [|discriminate].
    unfold ret at 1 in H. unfold bind at 1 in H.
    destruct (mapM _ r s1) as [[ys'|e] s2] eqn:Hr; [|discriminate].
    injection H as <- _. simpl. f_equal. eauto.
Qed.

Lemma getFlags_Ok_inv (st st' : Store) (flags : JsObject) :
  getFlags st = (Ok flags, st') ->
  exists entries,
    mapM (fun longName =>
            bind (getFlagValue longName) (fun value => ret (longName, value)))
         (map_keys (flagDeclarations (this st))) st = (Ok entries, st') /\
    flags = Object_fromEntries entries.
Proof.
  unfold getFlags, bind at 1, read. cbv beta iota. unfold bind at 1.
  destruct (mapM _ _ st) as [[entries|e] s1]; [|discriminate].
  unfold ret. intros [= <- <-]. eauto.
Qed.

(** *** Objects *)

Lemma defineProperty_fresh created k v :
  ~ In k (map fst created) ->
  defineProperty created k v = (created ++ [(k, v)])%list.
Proof.
  induction created as [|[k' v'] r IH]; simpl; intros Hn; [reflexivity|].
  destruct (String.eqb k k') eqn:E.
  - apply String.eqb_eq in E. subst k'. elim Hn. now left.
  - rewrite IH; auto.
Qed.

Lemma fold_defineProperty_distinct (entries : list (string * Value)) :
  forall created,
    NoDup (map fst created ++ map fst entries) ->
    fold_left (fun o e => defineProperty o (fst e) (snd e)) entries created
    = (created ++ entries)%list.
Proof.
  induction entries as [|[k v] r IH]; simpl; intros created Hnd.
  - now rewrite app_nil_r.
  - rewrite defineProperty_fresh.
    + rewrite IH.
      * now rewrite <- app_assoc.
      * rewrite map_app, <- app_assoc. exact Hnd.
    + intros Hin. apply NoDup_remove_2 in Hnd. apply Hnd.
      apply in_or_app. now left.
Qed.

Lemma insertByIndex_Permutation {A} (e : string * A) l :
  Permutation (insertByIndex e l) (e :: l).
Proof.
  induction l as [|x r IH]; simpl; [reflexivity|].
  destruct (indexOf e <=? indexOf x)%N; [reflexivity|].
  rewrite IH. apply perm_swap.
Qed.

Lemma sortByIndex_Permutation {A} (l : list (string * A)) :
  Permutation (sortByIndex l) l.
Proof.
  induction l as [|x r IH]; simpl; [reflexivity|].
  rewrite insertByIndex_Permutation. now constructor.
Qed.

Lemma insertByIndex_HdRel {A} (x e : string * A) l :
  indexLe x e -> HdRel indexLe x l -> HdRel indexLe x (insertByIndex e l).
Proof.
  intros Hxe H. destruct l as [|y r]; simpl.
  - now constructor.
  - destruct (indexOf e <=? indexOf y)%N; constructor; auto.
    now inversion H.
Qed.

Lemma insertByIndex_Sorted {A} (e : string * A) l :
  Sorted indexLe l -> Sorted indexLe (insertByIndex e l).
Proof.
  induction l as [|x r IH]; simpl; intros Hs.
  - repeat constructor.
  - inversion Hs as [|? ? Hr Hh]; subst.
    destruct (indexOf e <=? indexOf x)%N eqn:E.
    + constructor; auto. constructor. apply N.leb_le in E. exact E.
    + constructor; auto. apply insertByIndex_HdRel; auto.
      apply N.leb_gt in E. unfold indexLe. lia.
Qed.

Lemma sortByIndex_Sorted {A} (l : list (string * A)) :
  Sorted indexLe (sortByIndex l).
Proof.
  induction l as [|x r IH]; simpl; [constructor|].
  now apply insertByIndex_Sorted.
Qed.

Lemma filter_split_Permutation {A} (p : A -> bool) l :
  Permutation (filter p l ++ filter (fun x => negb (p x)) l) l.
Proof.
  induction l as [|x r IH]; simpl; [reflexivity|].
  destruct (p x); simpl.
  - now constructor.
  - rewrite <- Permutation_middle. now constructor.
Qed.

Lemma ownPropertyOrder_Permutation {A} (l : list (string * A)) :
  Permutation (ownPropertyOrder l) l.
Proof.
  unfold ownPropertyOrder. rewrite sortByIndex_Permutation.
  apply (filter_split_Permutation (fun e => isArrayIndex (fst e))).
Qed.

Lemma filter_none {A} (p : A -> bool) l :
  Forall (fun x => p x = false) l -> filter p l = [].
Proof.
  induction 1 as [|x r Hx _ IH]; simpl; [reflexivity|]. now rewrite Hx.
Qed.

Lemma filter_all {A} (p : A -> bool) l :
  Forall (fun x => p x = true) l -> filter p l = l.
Proof.
  induction 1 as [|x r Hx _ IH]; simpl; [reflexivity|]. now rewrite Hx, IH.
Qed.

Lemma filter_Forall {A} (p : A -> bool) l :
  Forall (fun x => p x = true) (filter p l).
Proof.
  apply Forall_forall. intros x Hx. now apply filter_In in Hx.
Qed.

Lemma sorted_indices_Forall {A} (l : list (string * A)) :
  Forall (fun e => isArrayIndex (fst e) = true)
         (sortByIndex (filter (fun e => isArrayIndex (fst e)) l)).
Proof.
  eapply Permutation_Forall.
  - symmetry. apply sortByIndex_Permutation.
  - apply (filter_Forall (fun e => isArrayIndex (fst e))).
Qed.

Lemma filter_map_fst {A} (p : string -> bool) (l : list (string * A)) :
  filter p (map fst l) = map fst (filter (fun e => p (fst e)) l).
Proof.
  induction l as [|x r IH]; simpl; [reflexivity|].
  destruct (p (fst x)); simpl; now rewrite IH.
Qed.

Lemma ownPropertyOrder_others {A} (l : list (string * A)) :
  filter (fun e => negb (isArrayIndex (fst e))) (ownPropertyOrder l)
  = filter (fun e => negb (isArrayIndex (fst e))) l.
Proof.
  unfold ownPropertyOrder. rewrite filter_app.
  rewrite (filter_none (fun e => negb (isArrayIndex (fst e)))).
  - simpl. apply filter_all.
    apply (filter_Forall (fun e => negb (isArrayIndex (fst e)))).
  - eapply Forall_impl; [|apply sorted_indices_Forall].
    intros e He. simpl in He. now rewrite He.
Qed.

Lemma ownPropertyOrder_no_index {A} (l : list (string * A)) :
  Forall (fun e => isArrayIndex (fst e) = false) l -> ownPropertyOrder l = l.
Proof.
  intros H. unfold ownPropertyOrder.
  rewrite (filter_none (fun e => isArrayIndex (fst e))) by exact H.
  simpl. apply filter_all. eapply Forall_impl; [|exact H].
  intros e He. simpl in He. now rewrite He.
Qed.

(** X9: when [getFlags] returns, the object has exactly one property per
    key of the declaration map (the keys of a map being distinct).  Its
    properties are listed with the array indices first, in ascending
    numeric order, and then the other keys in map order; so the order is
    the map order when no declared name is an array index. *)
Theorem X9_getFlags_one_property_per_key
  (st st' : Store) (flags : JsObject) :
  NoDup (map_keys (flagDeclarations (this st))) ->
  getFlags st = (Ok flags, st') ->
  Permutation (map fst flags) (map_keys (flagDeclarations (this st))) /\
  (exists indices others,
     flags = (indices ++ others)%list /\
     Forall (fun e => isArrayIndex (fst e) = true) indices /\
     Sorted indexLe indices /\
     map fst others
     = filter (fun k => negb (isArrayIndex k))
              (map_keys (flagDeclarations (this st)))) /\
  (Forall (fun k => isArrayIndex k = false)
          (map_keys (flagDeclarations (this st))) ->
   map fst flags = map_keys (flagDeclarations (this st))).
Proof.
  intros Hnd H.
  destruct (getFlags_Ok_inv _ _ _ H) as (entries & Hm & ->).
  assert (Hk : map fst entries = map_keys (flagDeclarations (this st))).
  { exact (mapM_tagged_keys getFlagValue _ _ _ _ Hm). }
  unfold Object_fromEntries.
  rewrite (fold_defineProperty_distinct entries [])
    by (simpl; now rewrite Hk).
  simpl app. rewrite <- Hk. split; [|split].
  - apply Permutation_map, ownPropertyOrder_Permutation.
  - exists (sortByIndex (filter (fun e => isArrayIndex (fst e)) entries)),
           (filter (fun e => negb (isArrayIndex (fst e))) entries).
    repeat split.
    + apply sorted_indices_Forall.
    + apply sortByIndex_Sorted.
    + now rewrite (filter_map_fst (fun k => negb (isArrayIndex k))).
  - intros Hno. rewrite ownPropertyOrder_no_index; [reflexivity|].
    apply Forall_forall. intros e He.
    rewrite Forall_forall in Hno. apply Hno. now apply in_map.
Qed.

Lemma mapM_Ok_each {A B} (f : A -> M B) (P : Instance -> A -> Prop) :
  (forall x, preserves (f x)) ->
  (forall x st y st', f x st = (Ok y, st') -> P (this st) x) ->
  forall xs st ys st',
    mapM f xs st = (Ok ys, st') -> forall x, In x xs -> P (this st) x.
Proof.
  intros Hkeep HP. induction xs as [|a r IH]; intros st ys st' H x Hin.
  - destruct Hin.
  - simpl in H. unfold bind at 1 in H.
    destruct (f a st) as [[y|e] s1] eqn:Ha; [|discriminate].
    unfold bind at 1 in H.
    destruct (mapM f r s1) as [[ys'|e] s2] eqn:Hr; [|discriminate].
    destruct Hin as [<-|Hin].
    + exact (HP _ _ _ _ Ha).
    + assert (Hs : this s1 = this st).
      { specialize (Hkeep a st). now rewrite Ha in Hkeep. }
      rewrite <- Hs. exact (IH _ _ _ Hr x Hin).
Qed.

(** X10: when no convertor and no default supplier changes the instance,
    [getFlags] returns only if every key of the declaration map has a
    declaration under its normalized form and that declaration has a flag
    token: one declared flag without a token makes the whole call throw. *)
Theorem X10_getFlags_needs_every_token
  (st st' : Store) (entries : list (string * Value)) :
  (forall f v, preserves (userConvertor f v)) ->
  (forall f, preserves (userSupplier f)) ->
  getFlags st = (Ok entries, st') ->
  forall k, In k (map_keys (flagDeclarations (this st))) ->
  exists dec t,
    map_get (flagDeclarations (this st)) (normalizeName k) = Some dec /\
    findRaw (rawArgs (this st)) (longName dec) TagFlag = Some t.
Proof.
  intros Hc Hs H k Hk.
  destruct (getFlags_Ok_inv _ _ _ H) as (es & Hm & _).
  refine (mapM_Ok_each
            (fun longName => bind (getFlagValue longName)
                                  (fun value => ret (longName, value)))
            (fun i k => exists dec t,
               map_get (flagDeclarations i) (normalizeName k) = Some dec /\
               findRaw (rawArgs i) (longName dec) TagFlag = Some t)
            _ _ _ _ _ _ Hm k Hk).
  - intros x. apply preserves_bind.
    + now apply preserves_getFlagValue.
    + intro. apply preserves_ret.
  - intros x s y s' Hx. unfold bind in Hx.
    destruct (getFlagValue x s) as [[v|e] s1] eqn:Hg; [|discriminate].
    exact (getFlagValue_Ok_inv _ _ _ _ Hg).
Qed.

(** X11: [isHelpRequested] asks for the flag [help].  On an instance that
    does not declare it, and on one that declares the built-in help flag
    but has no [help] token, it throws the not-declared error instead of
    answering [false]; with the built-in declaration and a token carrying
    a boolean, it answers that boolean. *)
Theorem X11_isHelpRequested (st : Store) :
  (map_get (flagDeclarations (this st)) (fst helpFlagNames) = None ->
   isHelpRequested st
   = (Throw (Error (notFoundMessage (fst helpFlagNames))), st)) /\
  (map_get (flagDeclarations (this st)) (fst helpFlagNames)
   = Some (declare (fst helpFlagNames, helpOption)) ->
   (findRaw (rawArgs (this st)) (fst helpFlagNames) TagFlag = None ->
    isHelpRequested st
    = (Throw (Error (notFoundMessage (fst helpFlagNames))), st)) /\
   (forall t b,
      findRaw (rawArgs (this st)) (fst helpFlagNames) TagFlag = Some t ->
      token_value t = RBool b ->
      isHelpRequested st = (Ok b, st))).
Proof.
  split.
  - intros Hd. unfold isHelpRequested, bind.
    now rewrite (getFlagValue_undeclared (fst helpFlagNames) st Hd).
  - intros H. split.
    + intros Hf. unfold isHelpRequested, bind.
      now rewrite (getFlagValue_absent_token (fst helpFlagNames) st _ H Hf).
    + intros t b Hf Hv. unfold isHelpRequested, bind.
      rewrite (getFlagValue_token (fst helpFlagNames) st _ t H Hf), Hv.
      destruct b; reflexivity.
Qed.

(** *** The help text *)

Lemma mapM_Ok_all {A B} (f : A -> M B) xs :
  (forall x, In x xs -> forall s, exists y s', f x s = (Ok y, s')) ->
  forall s, exists ys s', mapM f xs s = (Ok ys, s').
Proof.
  induction xs as [|x r IH]; intros H s; simpl.
  - unfold ret. eauto.
  - destruct (H x (or_introl eq_refl) s) as (y & s1 & Hx).
    destruct (IH (fun x' Hin => H x' (or_intror Hin)) s1) as (ys & s2 & Hr).
    exists (y :: ys), s2. unfold bind. now rewrite Hx, Hr.
Qed.

Lemma block_Ok dec :
  description dec <> None ->
  (forall d, default dec = Some d ->
             forall s, exists v s', callSupplier d s = (Ok v, s')) ->
  forall s, exists b s', block dec s = (Ok b, s').
Proof.
  intros Hdesc Hdef s. unfold block, descriptionLines, defaultValue.
  destruct (description dec) as [ls|]; [|now elim Hdesc].
  unfold bind at 1. unfold ret at 1.
  destruct (default dec) as [d|].
  - destruct (Hdef d eq_refl s) as (v & s' & Hv).
    unfold bind. rewrite Hv. unfold ret. eauto.
  - unfold bind, ret. eauto.
Qed.

(** X12: the help renders, and returns a string, whenever every visible
    declaration has a description and the default suppliers of the visible
    declarations return. *)
Theorem X12_help_renders (st : Store) :
  (forall dec,
     In dec (map_values (flagDeclarations (this st))) ->
     excludeFromHelp dec = false ->
     description dec <> None /\
     forall d, default dec = Some d ->
               forall s, exists v s', callSupplier d s = (Ok v, s')) ->
  exists message st', computeHelpMessage st = (Ok message, st').
Proof.
  intros H.
  destruct (mapM_Ok_all block
              (filter visible (map_values (flagDeclarations (this st))))) with
    (s := st) as (blocks & s1 & Hb).
  { intros dec Hin. apply filter_In in Hin. destruct Hin as [Hin Hv].
    assert (Hx : excludeFromHelp dec = false).
    { unfold visible in Hv. now destruct (excludeFromHelp dec). }
    destruct (H dec Hin Hx) as [Hdesc Hdef]. now apply block_Ok. }
  unfold computeHelpMessage, bind at 1, read at 1. cbv beta iota.
  unfold bind at 1. rewrite Hb. unfold bind, read, ret. eauto.
Qed.

Lemma nonEmpty_trim_nl d : nonEmpty (trim (nl ++ d)) = nonEmpty (trim d).
Proof. unfold nl. simpl append. now rewrite trim_space_head. Qed.

Lemma computeHelpMessage_no_blocks (st : Store) :
  filter visible (map_values (flagDeclarations (this st))) = [] ->
  computeHelpMessage st =
  (Ok match desciprion (this st) with
      | Some d => if nonEmpty (trim d) then nl ++ d else EmptyString
      | None => EmptyString
      end, st).
Proof.
  intros H. unfold computeHelpMessage, bind at 1, read at 1. cbv beta iota.
  rewrite H. cbn [mapM]. unfold bind, read, ret. cbv beta iota zeta.
  do 2 f_equal.
  destruct (desciprion (this st)) as [d|]; [|reflexivity].
  cbn [filter]. rewrite !nonEmpty_trim_nl.
  destruct (nonEmpty (trim d)); reflexivity.
Qed.

(** X13: with no visible declaration, the help is the empty string when no
    description is set or the description is blank, and otherwise a line
    break followed by the description; after [setDesciprion] that is the
    trimmed text given to it. *)
Theorem X13_help_without_visible_declarations (st : Store) :
  filter visible (map_values (flagDeclarations (this st))) = [] ->
  computeHelpMessage st =
    (Ok match desciprion (this st) with
        | Some d => if nonEmpty (trim d) then nl ++ d else EmptyString
        | None => EmptyString
        end, st) /\
  forall text,
    bind (setDesciprion text) (fun _ => computeHelpMessage) st =
    (Ok (if nonEmpty (trim text) then nl ++ trim text else EmptyString),
     snd (setDesciprion text st)).
Proof.
  intros H. split; [now apply computeHelpMessage_no_blocks|].
  intros text. unfold bind at 1.
  destruct (setDesciprion text st) as [r s1] eqn:Hs.
  unfold setDesciprion, bind, read, write in Hs. simpl in Hs.
  injection Hs as <- <-. simpl snd.
  rewrite computeHelpMessage_no_blocks by exact H.
  simpl. now rewrite trim_idempotent.
Qed.

Lemma append_assoc_ (a b c : string) : (a ++ b) ++ c = a ++ (b ++ c).
Proof. induction a as [|x r IH]; simpl; [reflexivity|now rewrite IH]. Qed.

Lemma join_head sep x xs : exists r, join sep (x :: xs) = x ++ r.
Proof.
  destruct xs as [|y ys].
  - exists EmptyString. simpl. induction x as [|c r IH]; simpl; congruence.
  - eexists. apply join_cons.
Qed.

Lemma names_begins dec indent :
  exists r,
    names dec indent = tab indent ++ primary ("--" ++ longName dec) ++ r.
Proof.
  unfold names.
  set (short := match shortName dec with
                | Some s => if truthy s then "-" ++ s else EmptyString
                | None => EmptyString
                end).
  assert (Hl : nonEmpty ("--" ++ longName dec) = true) by reflexivity.
  cbn [filter]. rewrite Hl. cbn [map].
  destruct (join_head ", " (primary ("--" ++ longName dec))
              (map primary (if nonEmpty short then [short] else [])))
    as [r Hr].
  rewrite Hr. eauto.
Qed.

(** X14: the block of a declaration begins with its long name: two spaces
    of indentation, then the coloured text of two dashes and the long name,
    whatever follows. *)
Theorem X14_block_begins_with_long_name
  (dec : FlagDeclaration) (st st' : Store) (b : string) :
  block dec st = (Ok b, st') ->
  exists rest, b = tab 1 ++ primary ("--" ++ longName dec) ++ rest.
Proof.
  unfold block. intros H. unfold bind at 1 in H.
  destruct (descriptionLines dec 2 st) as [[d|e] s1]; [|discriminate].
  unfold bind at 1 in H.
  destruct (defaultValue dec 2 s1) as [[dv|e] s2]; [|discriminate].
  unfold ret in H.
  set (text := join nl (filter nonEmpty [names dec 1; d; dv])) in H.
  assert (Hb : b = text) by congruence. rewrite Hb. unfold text.
  assert (Hline : nonEmpty (names dec 1) = true) by reflexivity.
  cbn [filter]. rewrite Hline.
  destruct (join_head nl (names dec 1)
              ((if nonEmpty d then d :: (if nonEmpty dv then [dv] else [])
                else (if nonEmpty dv then [dv] else []))))
    as [r2 Hr2].
  rewrite Hr2.
  destruct (names_begins dec 1) as [r1 Hr1]. rewrite Hr1.
  exists (r1 ++ r2). now rewrite !append_assoc_.
Qed.

Lemma mapM_throws_same {A B} (f : A -> M B) (e : Exception) xs :
  (forall x, In x xs ->
             forall s, (exists y s', f x s = (Ok y, s')) \/
                       (exists s', f x s = (Throw e, s'))) ->
  (exists x, In x xs /\ forall s, exists s', f x s = (Throw e, s')) ->
  forall s, exists s', mapM f xs s = (Throw e, s').
Proof.
  induction xs as [|a r IH]; intros Hall (x & Hin & Hx) s.
  - destruct Hin.
  - simpl. unfold bind at 1.
    destruct (Hall a (or_introl eq_refl) s) as [(y & s1 & Ha)|(s1 & Ha)];
      rewrite Ha; [|eauto].
    destruct Hin as [->|Hin].
    + destruct (Hx s) as (s2 & Hx'). congruence.
    + destruct (IH (fun x' H' => Hall x' (or_intror H'))
                   (ex_intro _ x (conj Hin Hx)) s1) as (s2 & Hr).
      unfold bind. rewrite Hr. eauto.
Qed.

(** X15: when the default suppliers of the visible declarations return,
    the only failure of rendering is the missing description: if some
    visible declaration has none, [computeHelpMessage] throws exactly the
    [TypeError] of reading [map] off [undefined]. *)
Theorem X15_help_fails_with_TypeError (st : Store) (bad : FlagDeclaration) :
  (forall dec,
     In dec (map_values (flagDeclarations (this st))) ->
     excludeFromHelp dec = false ->
     forall d, default dec = Some d ->
               forall s, exists v s', callSupplier d s = (Ok v, s')) ->
  In bad (map_values (flagDeclarations (this st))) ->
  excludeFromHelp bad = false ->
  description bad = None ->
  exists st', computeHelpMessage st = (Throw (TypeError undefinedMapMessage), st').
Proof.
  intros Hsup Hin Hx Hd.
  assert (Hvis : forall dec,
            In dec (filter visible (map_values (flagDeclarations (this st)))) ->
            In dec (map_values (flagDeclarations (this st))) /\
            excludeFromHelp dec = false).
  { intros dec H. apply filter_In in H. destruct H as [H Hv]. split; auto.
    unfold visible in Hv. now destruct (excludeFromHelp dec). }
  destruct (mapM_throws_same block (TypeError undefinedMapMessage)
              (filter visible (map_values (flagDeclarations (this st)))))
    with (s := st) as (s1 & Hb).
  - intros dec Hdec s. destruct (Hvis dec Hdec) as [Hi He].
    destruct (description dec) as [ls|] eqn:Hdesc.
    + left. apply block_Ok; [congruence|]. intros d. now apply Hsup.
    + right. rewrite block_without_description by assumption. eauto.
  - exists bad. split.
    + apply filter_In. split; auto. unfold visible. now rewrite Hx.
    + intros s. rewrite block_without_description by assumption. eauto.
  - unfold computeHelpMessage, bind at 1, read at 1. cbv beta iota.
    unfold bind at 1. rewrite Hb. eauto.
Qed.

(** *** Options without collisions *)

(** X16: an option whose normalized name no later option shares becomes
    the first entry of the map, before the entries of the later options;
    so the built-in help declaration of [createHelp], put first, stays
    first and stays hidden unless an option declares [help] again. *)
Theorem X16_fresh_first_option_stays_first
  (e : string * FlagOptions) (options : list (string * FlagOptions)) :
  (forall e', In e' options ->
              normalizeName (fst e') <> normalizeName (fst e)) ->
  createFlagDeclarations (e :: options) =
  (normalizeName (fst e), declare e) :: createFlagDeclarations options.
Proof.
  intros Hno. rewrite createFlagDeclarations_cons, fold_set_head.
  - now rewrite longName_declare.
  - intros x Hin. apply in_map_iff in Hin. destruct Hin as (d & <- & Hin).
    apply in_map_iff in Hin. destruct Hin as (e' & <- & Hin).
    simpl fst. rewrite !longName_declare. exact (Hno e' Hin).
Qed.

(** X17: when the normalized names of the options are pairwise distinct,
    the map is the options themselves, in their order, each declared
    under its normalized name. *)
Theorem X17_distinct_names_keep_every_option
  (options : list (string * FlagOptions)) :
  NoDup (map (fun e => normalizeName (fst e)) options) ->
  createFlagDeclarations options =
  map (fun e => (normalizeName (fst e), declare e)) options.
Proof.
  induction options as [|e r IH]; intros Hnd; [reflexivity|].
  inversion Hnd as [|k ks Hnotin Hnd']; subst.
  rewrite createFlagDeclarations_cons, fold_set_head.
  - rewrite longName_declare. simpl. f_equal. now apply IH.
  - intros x Hin. apply in_map_iff in Hin. destruct Hin as (d & <- & Hin).
    apply in_map_iff in Hin. destruct Hin as (e' & <- & Hin).
    simpl fst. rewrite !longName_declare. intros Heq. apply Hnotin.
    rewrite <- Heq. now apply (in_map (fun e => normalizeName (fst e))).
Qed.

(** X18: a flag declared with the string convertor resolves to the text of
    its first matching token as it stands, neither trimmed nor changed in
    case, and to the text [true] or [false] when that token carries a
    boolean; the store is left as it was. *)
Theorem X18_string_flag_resolves_verbatim
  (name : string) (st : Store) (dec : FlagDeclaration) (t : Token) :
  map_get (flagDeclarations (this st)) (normalizeName name) = Some dec ->
  convertor dec = StringConvertor ->
  findRaw (rawArgs (this st)) (longName dec) TagFlag = Some t ->
  (forall s, token_value t = RString s ->
             getFlagValue name st = (Ok (VString s), st)) /\
  (forall b, token_value t = RBool b ->
             getFlagValue name st
             = (Ok (VString (if b then "true" else "false")), st)).
Proof.
  intros Hd Hc Hf. split.
  - intros s Hv. now rewrite (getFlagValue_token name st dec t Hd Hf), Hv, Hc.
  - intros b Hv.
    rewrite (getFlagValue_token name st dec t Hd Hf), Hv, Hc.
    now destruct b.
Qed.

End Arguments.

(** ** A concrete program

    The world is an allocation counter, colouring is switched off, and the
    caller supplies three default suppliers: [() => 8080], one that throws
    (as [Deno.cwd()] does without read permission), and one that allocates
    a fresh object on each call. *)

Module Concrete.

Definition World : Type := nat.

Definition plain (s : string) : string := s.

(** Stand-ins for [Deno.inspect] and [Number], exact on the values the
    examples below meet. *)
Definition inspect (v : Value) : string :=
  match v with
  | VUndefined => "undefined"
  | VNull => "null"
  | VBool true => "true"
  | VBool false => "false"
  | VString s => dquote ++ s ++ dquote
  | VNumber 8080 => "8080"
  | VNumber _ => "0"
  | VObject _ => "{}"
  end.

Definition Number (v : RawValue) : Value :=
  match v with
  | RBool true => VNumber 1
  | RBool false => VNumber 0
  | RString s => if String.eqb s "9090" then VNumber 9090 else VUndefined
  | RUndefined => VUndefined
  end.

Definition userConvertor (f : nat) (v : RawValue) : M World Value :=
  fun st => (Ok VUndefined, st).

Definition cwdDenied : Exception := Error "Requires read access to <CWD>".

Definition userSupplier (f : nat) : M World Value :=
  fun st =>
    match f with
    | 0 => (Ok (VNumber 8080), st)
    | 1 => (Throw cwdDenied, st)
    | _ => (Ok (VObject (world World st)),
            {| this := this World st; world := S (world World st) |})
    end.

Definition empty : Store World :=
  {| this := {| rawArgs := []; flagDeclarations := []; desciprion := None |};
     world := 0 |}.

(** [new Arguments(options)] run with the given [Deno.args]. *)
Definition started (options : list (string * FlagOptions))
  (Deno_args : list string) : Store World :=
  snd (constructor World options Deno_args empty).

Definition getFlagValue := getFlagValue World Number userConvertor userSupplier.
Definition getFlags := getFlags World Number userConvertor userSupplier.
Definition isHelpRequested :=
  isHelpRequested World Number userConvertor userSupplier.
Definition computeHelpMessage :=
  computeHelpMessage World plain plain inspect userSupplier.
Definition triggerHelp := triggerHelp World plain plain inspect userSupplier.

Definition describedPort : list (string * FlagOptions) :=
  [ ("port",
     {| op_convertor := NumberConvertor;
        op_shortName := Some "p";
        op_description := Some "HTTP port.";
        op_default := Some (UserSupplier 0);
        op_excludeFromHelp := None |}) ].

Definition cwdOptions : list (string * FlagOptions) :=
  [ ("root",
     {| op_convertor := StringConvertor;
        op_shortName := None;
        op_description := Some "Root directory.";
        op_default := Some (UserSupplier 1);
        op_excludeFromHelp := None |}) ].

Definition configOption : FlagOptions :=
  {| op_convertor := StringConvertor;
     op_shortName := None;
     op_description := Some "Path of the configuration file.";
     op_default := None;
     op_excludeFromHelp := None |}.

Definition configOptions : list (string * FlagOptions) :=
  [ ("config, c", configOption) ].

Definition textOption : FlagOptions :=
  {| op_convertor := StringConvertor;
     op_shortName := None;
     op_description := Some "First.";
     op_default := None;
     op_excludeFromHelp := None |}.

Definition numberOption : FlagOptions :=
  {| op_convertor := NumberConvertor;
     op_shortName := None;
     op_description := Some "Second.";
     op_default := None;
     op_excludeFromHelp := None |}.

Definition collidingOptions : list (string * FlagOptions) :=
  [ ("Port", textOption); ("port", numberOption) ].

(** A name in comma form whose [shortName] option reads otherwise,
    followed by two options that collide. *)
Definition aliasOption : FlagOptions :=
  {| op_convertor := StringConvertor;
     op_shortName := Some " Xyz";
     op_description := Some "Path of the configuration file.";
     op_default := None;
     op_excludeFromHelp := None |}.

Definition mixedOptions : list (string * FlagOptions) :=
  [ ("Config, C", aliasOption); ("Port", textOption); ("port", numberOption) ].

Lemma userConvertor_keeps_instance f v : preserves World (userConvertor f v).
Proof. intro st; reflexivity. Qed.

Lemma userSupplier_keeps_instance f : preserves World (userSupplier f).
Proof. intro st. destruct f as [|[|f]]; reflexivity. Qed.

Lemma userSupplier_blind f : blind World (userSupplier f).
Proof.
  intros st1 st2 (Hr & Hd & Hw). unfold userSupplier.
  destruct f as [|[|f]]; simpl.
  - repeat split; assumption.
  - repeat split; assumption.
  - rewrite Hw. repeat split; assumption.
Qed.

End Concrete.

(** ** Instances at the concrete program *)

(** The long form of the port example resolves through the convertor,
    whatever the case of the token's name; the first matching token wins. *)
Example port_long_flag :
  let st := Concrete.started portOptions ["--PORT=9090"; "--port=1"] in
  Concrete.getFlagValue " Port " st = (Ok (VNumber 9090), st).
Proof. reflexivity. Qed.

Lemma C6_undeclared_name_throws_witness :
  map_get (flagDeclarations
             (this _ (Concrete.started portOptions ["--verbose"])))
          (normalizeName "Verbose") = None /\
  Concrete.getFlagValue "Verbose" (Concrete.started portOptions ["--verbose"])
  = (Throw (Error (notFoundMessage "Verbose")),
     Concrete.started portOptions ["--verbose"]).
Proof.
  split; [reflexivity|].
  apply (C6_undeclared_name_throws Concrete.World Concrete.Number
           Concrete.userConvertor Concrete.userSupplier "Verbose"
           (Concrete.started portOptions ["--verbose"])).
  reflexivity.
Defined.

Lemma C9_missing_description_throws_witness :
  exists e,
    fst (Concrete.computeHelpMessage (Concrete.started portOptions []))
    = Throw e.
Proof.
  apply (proj2 (C9_missing_description_throws Concrete.World Concrete.plain
                  Concrete.plain Concrete.inspect Concrete.userSupplier)
           (Concrete.started portOptions [])
           (declare ("port", portOption))).
  - simpl. left. reflexivity.
  - reflexivity.
  - reflexivity.
Defined.

Lemma C10_queries_preserve_instance_witness :
  let st := Concrete.started (createHelp ++ Concrete.describedPort)
                             ["--help"; "--port=9090"] in
  this _ (snd (Concrete.getFlags st)) = this _ st /\
  this _ (snd (Concrete.isHelpRequested st)) = this _ st /\
  this _ (snd (Concrete.computeHelpMessage st)) = this _ st /\
  (forall name, this _ (snd (Concrete.getFlagValue name st)) = this _ st) /\
  this _ (snd (Concrete.triggerHelp st)) = this _ st.
Proof.
  exact (C10_queries_preserve_instance Concrete.World Concrete.plain
           Concrete.plain Concrete.inspect Concrete.Number
           Concrete.userConvertor Concrete.userSupplier
           Concrete.userConvertor_keeps_instance
           Concrete.userSupplier_keeps_instance
           (Concrete.started (createHelp ++ Concrete.describedPort)
                             ["--help"; "--port=9090"])).
Defined.

Lemma C8_hidden_declarations_not_rendered_witness :
  (forall f, blind Concrete.World (Concrete.userSupplier f)) /\
  (forall e, In e Concrete.describedPort ->
             normalizeName (fst e) <> fst helpFlagNames) /\
  fst (Concrete.computeHelpMessage
         (Concrete.started (createHelp ++ Concrete.describedPort) ["--help"]))
  = fst (Concrete.computeHelpMessage
           (Concrete.started Concrete.describedPort ["--help"])).
Proof.
  assert (Hno : forall e, In e Concrete.describedPort ->
                          normalizeName (fst e) <> fst helpFlagNames).
  { intros e [<-|[]]. simpl. discriminate. }
  split; [exact Concrete.userSupplier_blind|].
  split; [exact Hno|].
  exact (proj1 (proj2 (proj2 (proj2
           (C8_hidden_declarations_not_rendered Concrete.World
              Concrete.plain Concrete.plain Concrete.inspect
              Concrete.userSupplier))
           Concrete.userSupplier_blind)
           Concrete.describedPort ["--help"] Concrete.empty Hno)).
Defined.

Lemma C7_triggerHelp_raises_rendered_help_witness :
  let st := Concrete.started (createHelp ++ Concrete.describedPort) [] in
  exists message,
    Concrete.computeHelpMessage st = (Ok message, st) /\
    Concrete.triggerHelp st = (Throw (InfoInterruption message), st) /\
    isPrintableException (InfoInterruption message) = true.
Proof.
  intros st.
  exists (match fst (Concrete.computeHelpMessage st) with
          | Ok m => m
          | Throw _ => EmptyString
          end).
  split; [reflexivity|].
  exact (C7_triggerHelp_raises_rendered_help Concrete.World Concrete.plain
           Concrete.plain Concrete.inspect Concrete.userSupplier
           st (Ok _) st eq_refl).
Defined.

Lemma C5_names_from_key_and_option_witness :
  (exists dec,
     map_get (createFlagDeclarations Concrete.mixedOptions)
             (normalizeName "Config, C") = Some dec /\
     In (normalizeName "Config, C", dec)
        (createFlagDeclarations Concrete.mixedOptions) /\
     longName dec = "config, c" /\
     shortName dec = Some "x") /\
  (exists name op,
     In (name, op) Concrete.mixedOptions /\
     "port" = normalizeName name /\
     longName (declare ("port", Concrete.numberOption)) = normalizeName name /\
     shortName (declare ("port", Concrete.numberOption))
     = match op_shortName op with
       | Some s => if truthy s then Some (normalizeShortName s) else None
       | None => None
       end).
Proof.
  split.
  - apply (proj1 (C5_names_from_key_and_option Concrete.mixedOptions)
             [] "Config, C" Concrete.aliasOption
             [("Port", Concrete.textOption); ("port", Concrete.numberOption)]).
    + reflexivity.
    + intros e [<-|[<-|[]]]; simpl; discriminate.
  - apply (proj2 (C5_names_from_key_and_option Concrete.mixedOptions)
             "port" (declare ("port", Concrete.numberOption))).
    right. left. reflexivity.
Defined.

Lemma C4_booleanConvertor_truth_table_witness :
  let st := Concrete.started createHelp ["--help"] in
  Concrete.getFlagValue "help" st = (Ok (VBool true), st).
Proof.
  intros st.
  apply (proj2 (proj2 (proj2 (proj2 (proj2
           (C4_booleanConvertor_truth_table Concrete.World Concrete.Number
              Concrete.userConvertor Concrete.userSupplier)))))
           "help" st
           (declare (fst helpFlagNames, helpOption))
           (Flag "help" (RBool true)));
    reflexivity.
Defined.

(** ** Inputs on which the specification and the code part ways *)

(** C3: two options whose names normalize to [port] are accepted without
    any error, and the map keeps only the second. *)
Lemma C3_duplicate_silently_overwritten :
  fst (constructor Concrete.World Concrete.collidingOptions [] Concrete.empty)
  = Ok tt /\
  flagDeclarations (this _ (Concrete.started Concrete.collidingOptions []))
  = [("port", declare ("port", Concrete.numberOption))].
Proof. split; reflexivity. Qed.

(** C4: the strings [false] and [0] convert to [true], and a string that
    is neither truthy nor falsy converts to [true] without any failure. *)
Lemma C4_other_strings_convert_to_true :
  booleanConvertor (RString "false") = VBool true /\
  booleanConvertor (RString "0") = VBool true /\
  callConvertor Concrete.World Concrete.Number Concrete.userConvertor
    BooleanConvertor (RString "maybe") Concrete.empty
  = (Ok (VBool true), Concrete.empty).
Proof. repeat split. Qed.

(** C5: the name [config, c] is kept whole as the long name and yields no
    short name; nothing is declared under [config]. *)
Lemma C5_comma_name_not_split :
  createFlagDeclarations Concrete.configOptions
  = [("config, c",
      {| longName := "config, c";
         shortName := None;
         description := Some ["Path of the configuration file."];
         default := None;
         convertor := StringConvertor;
         excludeFromHelp := false |})] /\
  map_get (createFlagDeclarations Concrete.configOptions) "config" = None.
Proof. split; reflexivity. Qed.

(** C7: when the default supplier of a visible declaration throws while
    the help is rendered, [triggerHelp] throws that exception, which is no
    help interruption and is not printable. *)
Lemma C7_triggerHelp_propagates_render_failure :
  let st := Concrete.started Concrete.cwdOptions [] in
  Concrete.triggerHelp st = (Throw Concrete.cwdDenied, st) /\
  isPrintableException Concrete.cwdDenied = false /\
  (forall message, Concrete.cwdDenied <> InfoInterruption message).
Proof. repeat split. intros message H. discriminate H. Qed.

(** ** Further instances at the concrete program *)

Module Samples.

Definition portWithText : FlagOptions :=
  {| op_convertor := NumberConvertor;
     op_shortName := Some "p";
     op_description := Some "HTTP port.";
     op_default := Some (UserSupplier 0);
     op_excludeFromHelp := None |}.

(** A string flag whose default allocates a fresh object on each call. *)
Definition cacheOption : FlagOptions :=
  {| op_convertor := StringConvertor;
     op_shortName := None;
     op_description := Some "Cache.";
     op_default := Some (UserSupplier 2);
     op_excludeFromHelp := None |}.

Definition store (options : list (string * FlagOptions))
  (tokens : list Token) : Store Concrete.World :=
  {| this := {| rawArgs := tokens;
                flagDeclarations := createFlagDeclarations options;
                desciprion := None |};
     world := 0 |}.

Definition twoPorts : Store Concrete.World :=
  store portOptions
        [Command "port"; Flag "PORT" (RString "9090"); Flag "port" (RString "1")].

Definition undefinedCache : Store Concrete.World :=
  store [("cache", cacheOption)] [Flag "Cache" RUndefined].

Definition bareCache : Store Concrete.World :=
  store [("cache", cacheOption)] [Flag "cache" (RBool true)].

Definition helpAndPort : Store Concrete.World :=
  store (createHelp ++ [("port", portWithText)])
        [Flag "help" (RBool true); Flag "port" (RString "9090")].

(** Two string flags, one named by a letter and one by a numeral. *)
Definition letterAndIndex : Store Concrete.World :=
  store [("b", cacheOption); ("2", cacheOption)]
        [Flag "b" (RString "x"); Flag "2" (RString "y")].

Definition helpOnly : Store Concrete.World :=
  store createHelp [Flag "help" (RBool true)].

Definition block := block Concrete.World Concrete.plain Concrete.plain
                          Concrete.inspect Concrete.userSupplier.

Definition callSupplier := callSupplier Concrete.World Concrete.userSupplier.

End Samples.

Lemma X2_description_lines_round_trip_witness :
  exists ls,
    description (declare ("port", Samples.portWithText)) = Some ls /\
    ls <> [] /\
    Forall (fun l => hasChar newline l = false) ls /\
    join nl ls = trim "HTTP port.".
Proof.
  apply (X2_description_lines_round_trip "port" "HTTP port."
           Samples.portWithText).
  reflexivity.
Defined.

Lemma X4_entries_well_formed_witness :
  "config, c" = longName (declare ("config, c", Concrete.configOption)) /\
  normalizeName (longName (declare ("config, c", Concrete.configOption)))
  = longName (declare ("config, c", Concrete.configOption)) /\
  (forall s, shortName (declare ("config, c", Concrete.configOption)) = Some s ->
             String.length s <= 1).
Proof.
  apply (X4_entries_well_formed Concrete.configOptions).
  left. reflexivity.
Defined.

Lemma X5_declared_name_is_found_witness :
  exists dec,
    map_get (createFlagDeclarations Concrete.collidingOptions)
            (normalizeName " PORT ") = Some dec /\
    longName dec = normalizeName "Port".
Proof.
  apply (X5_declared_name_is_found Concrete.collidingOptions "Port" " PORT "
           Concrete.textOption).
  - left. reflexivity.
  - reflexivity.
Defined.

Lemma X6_query_name_insensitive_witness :
  Concrete.getFlagValue "port" Samples.twoPorts
  = Concrete.getFlagValue " Port " Samples.twoPorts \/
  (Concrete.getFlagValue "port" Samples.twoPorts
   = (Throw (Error (notFoundMessage "port")), Samples.twoPorts) /\
   Concrete.getFlagValue " Port " Samples.twoPorts
   = (Throw (Error (notFoundMessage " Port ")), Samples.twoPorts)).
Proof.
  apply (X6_query_name_insensitive Concrete.World Concrete.Number
           Concrete.userConvertor Concrete.userSupplier
           "port" " Port " Samples.twoPorts).
  reflexivity.
Defined.

Lemma X7_first_matching_flag_decides_witness :
  Concrete.getFlagValue "port" Samples.twoPorts
  = (Ok (VNumber 9090), Samples.twoPorts).
Proof.
  apply (X7_first_matching_flag_decides Concrete.World Concrete.Number
           Concrete.userConvertor Concrete.userSupplier
           "port" Samples.twoPorts (declare ("port", portOption))
           [Command "port"] [Flag "port" (RString "1")]
           "PORT" (RString "9090")).
  - reflexivity.
  - reflexivity.
  - reflexivity.
  - intros u [<-|[]] Htag. discriminate Htag.
Defined.

Lemma X8_default_supplied_afresh_witness :
  bind Concrete.World (Concrete.getFlagValue "cache")
       (fun a => bind Concrete.World (Concrete.getFlagValue "cache")
                      (fun b => ret Concrete.World (a, b)))
       Samples.undefinedCache
  = bind Concrete.World (Samples.callSupplier (UserSupplier 2))
       (fun a => bind Concrete.World (Samples.callSupplier (UserSupplier 2))
                      (fun b => ret Concrete.World
                                    (orUndefined a, orUndefined b)))
       Samples.undefinedCache /\
  fst (bind Concrete.World (Samples.callSupplier (UserSupplier 2))
         (fun a => bind Concrete.World (Samples.callSupplier (UserSupplier 2))
                        (fun b => ret Concrete.World
                                      (orUndefined a, orUndefined b)))
         Samples.undefinedCache)
  = Ok (VObject 0, VObject 1).
Proof.
  split; [|reflexivity].
  apply (X8_default_supplied_afresh Concrete.World Concrete.Number
           Concrete.userConvertor Concrete.userSupplier
           "cache" Samples.undefinedCache
           (declare ("cache", Samples.cacheOption))
           (Flag "Cache" RUndefined) (UserSupplier 2)).
  - reflexivity.
  - reflexivity.
  - reflexivity.
  - reflexivity.
  - intros s. reflexivity.
Defined.

Lemma X9_getFlags_one_property_per_key_witness :
  Concrete.getFlags Samples.letterAndIndex
  = (Ok [("2", VString "y"); ("b", VString "x")], Samples.letterAndIndex) /\
  Permutation (map fst [("2", VString "y"); ("b", VString "x")])
              (map_keys (flagDeclarations (this _ Samples.letterAndIndex))) /\
  map_keys (flagDeclarations (this _ Samples.letterAndIndex)) = ["b"; "2"].
Proof.
  split; [reflexivity|]. split; [|reflexivity].
  apply (X9_getFlags_one_property_per_key Concrete.World Concrete.Number
           Concrete.userConvertor Concrete.userSupplier
           Samples.letterAndIndex Samples.letterAndIndex
           [("2", VString "y"); ("b", VString "x")]).
  - simpl. constructor.
    + intros [H|[]]. discriminate H.
    + constructor; [intros []|constructor].
  - reflexivity.
Defined.

Lemma X10_getFlags_needs_every_token_witness :
  exists dec t,
    map_get (flagDeclarations (this _ Samples.helpAndPort))
            (normalizeName "port") = Some dec /\
    findRaw (rawArgs (this _ Samples.helpAndPort)) (longName dec) TagFlag
    = Some t.
Proof.
  apply (X10_getFlags_needs_every_token Concrete.World Concrete.Number
           Concrete.userConvertor Concrete.userSupplier
           Samples.helpAndPort Samples.helpAndPort
           [("help", VBool true); ("port", VNumber 9090)]
           Concrete.userConvertor_keeps_instance
           Concrete.userSupplier_keeps_instance).
  - reflexivity.
  - right. left. reflexivity.
Defined.

Lemma X11_isHelpRequested_witness :
  Concrete.isHelpRequested Samples.helpOnly = (Ok true, Samples.helpOnly) /\
  Concrete.isHelpRequested (Samples.store createHelp [Command "help"])
  = (Throw (Error (notFoundMessage "help")),
     Samples.store createHelp [Command "help"]).
Proof.
  split.
  - apply (proj2 (proj2 (X11_isHelpRequested Concrete.World Concrete.Number
                           Concrete.userConvertor Concrete.userSupplier
                           Samples.helpOnly) eq_refl)
             (Flag "help" (RBool true)) true); reflexivity.
  - apply (proj1 (proj2 (X11_isHelpRequested Concrete.World Concrete.Number
                           Concrete.userConvertor Concrete.userSupplier
                           (Samples.store createHelp [Command "help"]))
                    eq_refl)).
    reflexivity.
Defined.

Lemma X12_help_renders_witness :
  exists message st',
    Concrete.computeHelpMessage Samples.helpAndPort = (Ok message, st').
Proof.
  apply (X12_help_renders Concrete.World Concrete.plain Concrete.plain
           Concrete.inspect Concrete.userSupplier Samples.helpAndPort).
  intros dec [<-|[<-|[]]] Hx; [discriminate Hx|].
  split; [discriminate|].
  intros d Hd s. injection Hd as <-.
  exists (VNumber 8080), s. reflexivity.
Defined.

Lemma X13_help_without_visible_declarations_witness :
  Concrete.computeHelpMessage Samples.helpOnly
  = (Ok EmptyString, Samples.helpOnly) /\
  forall text,
    bind Concrete.World
         (setDesciprion Concrete.World text)
         (fun _ => Concrete.computeHelpMessage) Samples.helpOnly
    = (Ok (if nonEmpty (trim text) then nl ++ trim text else EmptyString),
       snd (setDesciprion Concrete.World text Samples.helpOnly)).
Proof.
  apply (X13_help_without_visible_declarations Concrete.World Concrete.plain
           Concrete.plain Concrete.inspect Concrete.userSupplier
           Samples.helpOnly).
  reflexivity.
Defined.

Lemma X14_block_begins_with_long_name_witness :
  exists rest,
    "  --port, -p" ++ nl ++ "    HTTP port." ++ nl ++ "    Default: 8080"
    = tab 1 ++ Concrete.plain ("--" ++ longName (declare ("port", Samples.portWithText)))
        ++ rest.
Proof.
  apply (X14_block_begins_with_long_name Concrete.World Concrete.plain
           Concrete.plain Concrete.inspect Concrete.userSupplier
           (declare ("port", Samples.portWithText))
           Concrete.empty Concrete.empty).
  reflexivity.
Defined.

Lemma X15_help_fails_with_TypeError_witness :
  exists st',
    Concrete.computeHelpMessage (Samples.store portOptions [])
    = (Throw (TypeError undefinedMapMessage), st').
Proof.
  apply (X15_help_fails_with_TypeError Concrete.World Concrete.plain
           Concrete.plain Concrete.inspect Concrete.userSupplier
           (Samples.store portOptions []) (declare ("port", portOption))).
  - intros dec [<-|[]] Hx d Hd s. injection Hd as <-.
    exists (VNumber 8080), s. reflexivity.
  - left. reflexivity.
  - reflexivity.
  - reflexivity.
Defined.

Lemma X16_fresh_first_option_stays_first_witness :
  createFlagDeclarations ((fst helpFlagNames, helpOption)
                            :: [("port", Samples.portWithText)])
  = (normalizeName (fst helpFlagNames), declare (fst helpFlagNames, helpOption))
      :: createFlagDeclarations [("port", Samples.portWithText)].
Proof.
  apply (X16_fresh_first_option_stays_first (fst helpFlagNames, helpOption)
           [("port", Samples.portWithText)]).
  intros e' [<-|[]]. simpl. discriminate.
Defined.

Lemma X17_distinct_names_keep_every_option_witness :
  createFlagDeclarations (createHelp ++ [("port", Samples.portWithText)])
  = map (fun e => (normalizeName (fst e), declare e))
        (createHelp ++ [("port", Samples.portWithText)]).
Proof.
  apply (X17_distinct_names_keep_every_option
           (createHelp ++ [("port", Samples.portWithText)])).
  simpl. constructor.
  - intros [H|[]]. discriminate H.
  - constructor; [intros []|constructor].
Defined.

Lemma X18_string_flag_resolves_verbatim_witness :
  Concrete.getFlagValue "cache" Samples.bareCache
  = (Ok (VString "true"), Samples.bareCache).
Proof.
  apply (proj2 (X18_string_flag_resolves_verbatim Concrete.World
                  Concrete.Number Concrete.userConvertor Concrete.userSupplier
                  "cache" Samples.bareCache
                  (declare ("cache", Samples.cacheOption))
                  (Flag "cache" (RBool true))
                  eq_refl eq_refl eq_refl) true).
  reflexivity.
Defined.
